(** * View resolution of express: lib/view.js

    A shallow embedding of the [View] class: extension inference, lazy
    binding of the rendering engine in the shared [engines] registry, lookup
    of the view file over the configured roots, and the render delegate.

    The class runs against three services of the host, none of which is part
    of the library: Node's [path] module, [fs.statSync] and [require].  The
    first is modelled in [Module Path] (POSIX flavour); the other two are
    fields of a [Host] record, and every call to them is recorded in the
    [World] the computation threads through.  A [Process] is a host together
    with the state of its working directory: [process.cwd()], which
    [path.resolve] calls behind relative paths, throws once that directory
    is gone.  The class is written over processes; a statement about a host
    [h] is about the process [live h], whose working directory is there. *)

From Stdlib Require Import String Ascii List Bool Arith Lia.
From stdpp Require Import base option gmap strings.
Import ListNotations.

Local Open Scope string_scope.
Local Open Scope list_scope.

(** ** Node's [path] module, POSIX flavour

    [view.js] imports [dirname], [basename], [extname], [join] and [resolve].
    Paths are JavaScript strings; [/] is the only separator. *)

Module Path.

Definition is_slash (c : ascii) : bool := Ascii.eqb c "/".
Definition is_dot (c : ascii) : bool := Ascii.eqb c ".".

Definition isAbsolute (p : string) : bool :=
  match p with
  | String c _ => is_slash c
  | EmptyString => false
  end.

Definition endsWithSlash (p : string) : bool :=
  match rev (list_ascii_of_string p) with
  | c :: _ => is_slash c
  | [] => false
  end.

(** [p.split('/')]: the text between separators, empty pieces included. *)
Fixpoint segments (p : string) : list string :=
  match p with
  | EmptyString => [EmptyString]
  | String c p' =>
      if is_slash c then EmptyString :: segments p'
      else match segments p' with
           | seg :: rest => String c seg :: rest
           | [] => [String c EmptyString]
           end
  end.

(** One step of [normalizeString]: [acc] is the stack of segments kept so
    far, innermost first. *)
Definition normalizeStep (allowAboveRoot : bool) (acc : list string)
    (seg : string) : list string :=
  if String.eqb seg "" || String.eqb seg "." then acc
  else if String.eqb seg ".." then
    match acc with
    | top :: below => if String.eqb top ".." then seg :: acc else below
    | [] => if allowAboveRoot then [seg] else []
    end
  else seg :: acc.

(** [normalizeString(path, allowAboveRoot)]: resolves [.] and [..] and
    drops empty segments; the result has no leading or trailing slash. *)
Definition normalizeString (p : string) (allowAboveRoot : bool) : string :=
  String.concat "/" (rev (fold_left (normalizeStep allowAboveRoot) (segments p) [])).

Definition normalize (p : string) : string :=
  if String.eqb p "" then "."
  else
    let abs := isAbsolute p in
    let trailing := endsWithSlash p in
    let body := normalizeString p (negb abs) in
    if String.eqb body "" then
      if abs then "/" else if trailing then "./" else "."
    else
      let body := if trailing then body +:+ "/" else body in
      if abs then "/" +:+ body else body.

(** [join(...parts)]: the non-empty parts glued with [/], normalized. *)
Definition join (parts : list string) : string :=
  match filter (fun s => negb (String.eqb s "")) parts with
  | [] => "."
  | nonempty => normalize (String.concat "/" nonempty)
  end.

Definition quoted (s : string) : string :=
  let q := String (ascii_of_nat 34) EmptyString in q +:+ s +:+ q.

(** The failure of [validateString] on an argument that is [undefined]. *)
Definition invalidArg (arg : string) : string :=
  "The " +:+ quoted arg +:+ " argument must be of type string. Received undefined".

(** What [process.cwd()] does when [resolve] comes to call it: it returns
    the working directory, or it throws a system error, as when that
    directory has been removed. *)
Inductive Cwd : Type :=
| Dir (dir : string)
| Gone (code : string).

(** The two ways [resolve] fails: the [TypeError] of [validateString], with
    its message, and the system error of [process.cwd()], with its code. *)
Inductive Failure : Type :=
| InvalidArg (msg : string)
| CwdFailure (code : string).

(** [resolve(root, name)], right to left: [name] first, [root] only when
    [name] is not absolute, the working directory only when neither is.
    An argument is validated when it is reached, so an [undefined] root
    fails only behind a relative [name]; [process.cwd()] is called, and can
    fail, only behind a relative [root]. *)
Definition resolve (cwd : Cwd) (root : option string) (name : string)
    : Failure + string :=
  let finish (abs : bool) (p : string) : string :=
    let body := normalizeString p (negb abs) in
    if abs then "/" +:+ body
    else if String.eqb body "" then "." else body in
  if isAbsolute name then inr (finish true (name +:+ "/"))
  else
    match root with
    | None => inl (InvalidArg (invalidArg "paths[0]"))
    | Some r =>
        let p := if String.eqb name "" then "" else name +:+ "/" in
        if isAbsolute r then inr (finish true (r +:+ "/" +:+ p))
        else
          let p := if String.eqb r "" then p else r +:+ "/" +:+ p in
          match cwd with
          | Dir dir => inr (finish (isAbsolute dir) (dir +:+ "/" +:+ p))
          | Gone code => inl (CwdFailure code)
          end
    end.

(** Scanning from the end, as the library does: [skip] passes the
    trailing separators, [component] reads back to the previous one. *)
Fixpoint skip (f : ascii -> bool) (l : list ascii) : list ascii :=
  match l with
  | c :: l' => if f c then skip f l' else l
  | [] => []
  end.

Fixpoint component (l : list ascii) : list ascii :=
  match l with
  | c :: l' => if is_slash c then [] else c :: component l'
  | [] => []
  end.

(** [basename(path)]: the last component, trailing separators ignored. *)
Definition basename (p : string) : string :=
  string_of_list_ascii
    (rev (component (skip is_slash (rev (list_ascii_of_string p))))).

(** [dirname(path)]: what precedes the last component. *)
Definition dirname (p : string) : string :=
  match list_ascii_of_string p with
  | [] => "."
  | c0 :: rest =>
      match skip (fun c => negb (is_slash c)) (skip is_slash (rev rest)) with
      | [] => if is_slash c0 then "/" else "."
      | _ :: before =>
          match before with
          | [] => if is_slash c0 then "//" else String c0 EmptyString
          | _ => string_of_list_ascii (c0 :: rev before)
          end
      end
  end.

(** [extname(path)]: from the last dot of the last component to its end;
    empty when there is no dot, when the only dot opens the component, or
    when the component is [..]. *)
Fixpoint upToDot (l : list ascii) : option (list ascii * list ascii) :=
  match l with
  | [] => None
  | c :: l' =>
      if is_dot c then Some ([c], l')
      else match upToDot l' with
           | Some (e, before) => Some (c :: e, before)
           | None => None
           end
  end.

Definition extname (p : string) : string :=
  let base := basename p in
  match upToDot (rev (list_ascii_of_string base)) with
  | None => ""
  | Some (_, []) => ""
  | Some (e, _ :: _) =>
      if String.eqb base ".." then "" else string_of_list_ascii (rev e)
  end.

(** The suffix against the last component, both read from the end: the
    suffix is found and leaves a stem, or a character differs, or the
    component ends first. *)
Inductive SuffixMatch : Type :=
| Matched (stem : list ascii)
| Mismatch
| Exhausted.

Fixpoint matchSuffix (rsuffix rcomponent : list ascii) : SuffixMatch :=
  match rsuffix, rcomponent with
  | [], _ => Matched rcomponent
  | a :: rs, b :: rc => if Ascii.eqb a b then matchSuffix rs rc else Mismatch
  | _ :: _, [] => Exhausted
  end.

Fixpoint leading (f : ascii -> bool) (l : list ascii) : list ascii :=
  match l with
  | c :: l' => if f c then c :: leading f l' else []
  | [] => []
  end.

(** [basename(path, suffix)]: the last component without [suffix].  The
    component is kept whole when the suffix is all of it or does not end it;
    the result is empty when the suffix is the whole path; and when the
    component runs out while it still agrees with the suffix, the library
    returns it with the separators that follow it. *)
Definition basenameExt (p suffix : string) : string :=
  if String.eqb suffix "" || Nat.ltb (String.length p) (String.length suffix)
  then basename p
  else if String.eqb suffix p then ""
  else
    let rpath := rev (list_ascii_of_string p) in
    let rcomponent := component (skip is_slash rpath) in
    match matchSuffix (rev (list_ascii_of_string suffix)) rcomponent with
    | Matched ((_ :: _) as stem) => string_of_list_ascii (rev stem)
    | Matched [] | Mismatch => string_of_list_ascii (rev rcomponent)
    | Exhausted => string_of_list_ascii (rev rcomponent ++ leading is_slash rpath)
    end.

End Path.

(** Where a working directory is expected, a string is one that is there. *)
Coercion Path.Dir : string >-> Path.Cwd.

(** ** JavaScript values, completions and the host *)

(** Objects (functions, the [engines] registry, the arguments of [render])
    are known by reference. *)
Definition Ref := nat.

Inductive JsValue : Type :=
| JsUndefined
| JsFunction (f : Ref)
| JsOther (shown : string).

(** [typeof v === 'function'] *)
Definition asFunction (v : JsValue) : option Ref :=
  match v with
  | JsFunction f => Some f
  | _ => None
  end.

(** What a [throw] carries: a [TypeError] of the runtime, a plain [Error]
    made by [new Error(msg)], or the system error of a failed [fs] call. *)
Inductive Exn : Type :=
| TypeError (msg : string)
| Error (msg : string)
| SystemError (code : string).

Inductive FileKind : Type := RegularFile | Directory | OtherKind.

(** [fs.statSync(path)] returns an [fs.Stats] or throws. *)
Inductive StatResult : Type :=
| Stats (kind : FileKind)
| StatFails (code : string).

(** [stat.isFile()] *)
Definition isFile (s : FileKind) : bool :=
  match s with
  | RegularFile => true
  | _ => false
  end.

(** [require(mod)] throws or returns the exports of the module, of which
    only the [__express] property is read. *)
Inductive RequireResult : Type :=
| Exports (__express : JsValue)
| RequireFails (e : Exn).

(** One invocation [fn(path, options, callback)] of an engine. *)
Record Call : Type := mkCall {
  callee : Ref;
  call_path : option string;
  call_options : Ref;
  call_callback : Ref
}.

Record Host : Type := mkHost {
  cwd : string;                         (* the working directory *)
  statSync : string -> StatResult;      (* the file system *)
  require : string -> RequireResult;    (* the installed modules *)
  invoke : Call -> option Exn           (* what an engine throws, if anything *)
}.

(** The process the class runs in: a host, and whether [process.cwd()]
    still answers.  When the working directory has been removed
    [process.cwd()] throws a system error, of which [cwdFailure] is the
    code. *)
Record Process : Type := mkProcess {
  host : Host;
  cwdFailure : option string
}.

(** A host whose working directory is there. *)
Definition live (h : Host) : Process := mkProcess h None.
Coercion live : Host >-> Process.

(** [process.cwd()] *)
Definition processCwd (p : Process) : Path.Cwd :=
  match cwdFailure p with
  | Some code => Path.Gone code
  | None => Path.Dir (cwd (host p))
  end.

(** The mutable part: the registry objects, and a trace of every call made
    to the host. *)
Record World : Type := mkWorld {
  heap : gmap Ref (gmap string Ref);
  stats : list string;
  loads : list string;
  calls : list Call
}.

Inductive Completion (A : Type) : Type :=
| Normal (a : A)
| Throw (e : Exn).
Arguments Normal {A} a.
Arguments Throw {A} e.

Definition Js (A : Type) : Type := World -> Completion A * World.

Definition ret {A} (a : A) : Js A := fun w => (Normal a, w).
Definition throw {A} (e : Exn) : Js A := fun w => (Throw e, w).
Definition bind {A B} (m : Js A) (k : A -> Js B) : Js B :=
  fun w =>
    match m w with
    | (Normal a, w') => k a w'
    | (Throw e, w') => (Throw e, w')
    end.

Declare Scope js_scope.
Delimit Scope js_scope with js.
Notation "'let*' x := m 'in' k" := (bind m (fun x => k))
  (at level 10, x name, m at level 100, k at level 200) : js_scope.
Notation "m ;;; k" := (bind m (fun _ => k))
  (at level 100, k at level 200, right associativity) : js_scope.
Local Open Scope js_scope.

(** [obj[key]] and [obj[key] = fn] on a registry; a reference nothing was
    ever stored under reads as the empty object. *)
Definition getProp (obj : Ref) (key : string) : Js (option Ref) :=
  fun w => (Normal ((heap w !!! obj) !! key), w).

Definition assign (obj : Ref) (key : string) (fn : Ref) (w : World) : World :=
  mkWorld (<[obj := <[key := fn]> (heap w !!! obj)]> (heap w))
          (stats w) (loads w) (calls w).

Definition setProp (obj : Ref) (key : string) (fn : Ref) : Js unit :=
  fun w => (Normal tt, assign obj key fn w).

Definition logStats (paths : list string) (w : World) : World :=
  mkWorld (heap w) (stats w ++ paths) (loads w) (calls w).

Definition logLoad (mod_ : string) (w : World) : World :=
  mkWorld (heap w) (stats w) (loads w ++ [mod_]) (calls w).

Definition logCall (c : Call) (w : World) : World :=
  mkWorld (heap w) (stats w) (loads w) (calls w ++ [c]).

(** [require(mod).__express] *)
Definition requireExpress (h : Host) (mod_ : string) : Js JsValue :=
  fun w =>
    match require h mod_ with
    | Exports fn => (Normal fn, logLoad mod_ w)
    | RequireFails e => (Throw e, logLoad mod_ w)
    end.

(** JavaScript truthiness of a string, and of a string that may be
    [undefined]. *)
Definition truthy (s : string) : bool := negb (String.eqb s "").

Definition truthyOpt (s : option string) : bool :=
  match s with
  | Some s => truthy s
  | None => false
  end.

(** [s.substr(1)] *)
Definition substr1 (s : string) : string :=
  match s with
  | String _ s' => s'
  | EmptyString => EmptyString
  end.

(** [s[0] !== '.'] *)
Definition firstIsNotDot (s : string) : bool :=
  match s with
  | String c _ => negb (Path.is_dot c)
  | EmptyString => true
  end.

(** The recognised options of the constructor. *)
Module Options.

(** [root]: absent, one directory, or an array of directories. *)
Inductive Root : Type :=
| Undefined
| One (dir : string)
| Many (dirs : list string).

Record t : Type := mk {
  defaultEngine : option string;
  engines : option Ref;
  root : Root
}.

(** [{}] *)
Definition empty : t := mk None None Undefined.

End Options.

(** [[].concat(root)]: an array is spread, anything else is one element. *)
Definition concatRoot (root : Options.Root) : list (option string) :=
  match root with
  | Options.Undefined => [None]
  | Options.One dir => [Some dir]
  | Options.Many dirs => map Some dirs
  end.

Definition noDefaultEngine : string :=
  "No default engine was specified and no extension was provided.".

Definition noViewEngine (mod_ : string) : string :=
  "Module " +:+ mod_ +:+ " does not provide a view engine.".

Definition readOfUndefined (key : string) : string :=
  "Cannot read properties of undefined (reading '" +:+ key +:+ "')".

Definition notAFunction : string := "this.engine is not a function".

(** ** The [View] class *)

Module View.

Record t : Type := mk {
  defaultEngine : option string;
  ext : string;
  name : string;
  root : Options.Root;
  engine : option Ref;
  path : option string
}.

(** [tryStat(path)]: the [Stats], or [undefined] when [statSync] throws. *)
Definition tryStat (p : Process) (path : string) : Js (option FileKind) :=
  fun w =>
    (Normal match statSync (host p) path with
            | Stats st => Some st
            | StatFails _ => None
            end,
     logStats [path] w).

(** [stat && stat.isFile()] *)
Definition statIsFile (stat : option FileKind) : bool :=
  match stat with
  | Some st => isFile st
  | None => false
  end.

(** [resolve(dir, file)]: the file itself, then the index file of the
    directory of that name. *)
Definition resolve (p : Process) (this : t) (dir file : string) : Js (option string) :=
  let ext := ext this in
  let path := Path.join [dir; file] in
  let* stat := tryStat p path in
  if statIsFile stat then ret (Some path)
  else
    let path := Path.join [dir; Path.basenameExt file ext; "index" +:+ ext] in
    let* stat := tryStat p path in
    if statIsFile stat then ret (Some path)
    else ret None.

(** [path.resolve(root, name)] as a step of the computation. *)
Definition pathResolve (p : Process) (root : option string) (name : string) : Js string :=
  match Path.resolve (processCwd p) root name with
  | inr loc => ret loc
  | inl (Path.InvalidArg msg) => throw (TypeError msg)
  | inl (Path.CwdFailure code) => throw (SystemError code)
  end.

(** The body of the loop of [lookup], for one root. *)
Definition lookupIn (p : Process) (this : t) (name : string) (root : option string)
    : Js (option string) :=
  let* loc := pathResolve p root name in
  let dir := Path.dirname loc in
  let file := Path.basename loc in
  resolve p this dir file.

(** [!path] is false *)
Definition found (path : option string) : bool := truthyOpt path.

(** [for (let i = 0; i < roots.length && !path; i++)], on the roots that
    remain. *)
Fixpoint lookupLoop (p : Process) (this : t) (name : string)
    (roots : list (option string)) (path : option string) : Js (option string) :=
  match roots with
  | [] => ret path
  | root :: rest =>
      if found path then ret path
      else
        let* path := lookupIn p this name root in
        lookupLoop p this name rest path
  end.

Definition lookup (p : Process) (this : t) (name : string) : Js (option string) :=
  let roots := concatRoot (root this) in
  lookupLoop p this name roots None.

(** [this.engine(this.path, options, callback)] *)
Definition render (p : Process) (this : t) (options callback : Ref) : Js unit :=
  match engine this with
  | None => throw (TypeError notAFunction)
  | Some fn =>
      fun w =>
        let c := mkCall fn (path this) options callback in
        (match invoke (host p) c with
         | None => Normal tt
         | Some e => Throw e
         end,
         logCall c w)
  end.

(** Lines 43-54: the extension, and the name of the file to look up. *)
Definition inferExtension (name : string) (defaultEngine : option string)
    : Completion (string * string) :=
  let ext := Path.extname name in
  if negb (truthy ext) && negb (truthyOpt defaultEngine) then
    Throw (Error noDefaultEngine)
  else
    let fileName := name in
    if negb (truthy ext) then
      match defaultEngine with
      | Some d =>
          let ext := if firstIsNotDot d then "." +:+ d else d in
          Normal (ext, fileName +:+ ext)
      | None => Throw (TypeError (readOfUndefined "0"))
      end
    else Normal (ext, fileName).

(** Lines 56-72: the engine of [ext], loaded and stored in the registry
    when the registry lacks it. *)
Definition bindEngine (p : Process) (engines : option Ref) (ext : string)
    : Js (option Ref) :=
  match engines with
  | None => throw (TypeError (readOfUndefined ext))
  | Some registry =>
      let* bound := getProp registry ext in
      (match bound with
       | None =>
           let mod_ := substr1 ext in
           let* fn := requireExpress (host p) mod_ in
           match asFunction fn with
           | None => throw (Error (noViewEngine mod_))
           | Some fn => setProp registry ext fn
           end
       | Some _ => ret tt
       end) ;;;
      getProp registry ext
  end.

Definition constructor (p : Process) (name : string) (options : option Options.t)
    : Js t :=
  let opts := default Options.empty options in
  match inferExtension name (Options.defaultEngine opts) with
  | Throw e => throw e
  | Normal (ext, fileName) =>
      let this := mk (Options.defaultEngine opts) ext name (Options.root opts) None None in
      let* engine := bindEngine p (Options.engines opts) ext in
      let this := mk (defaultEngine this) (View.ext this) (View.name this) (root this)
                     engine None in
      let* path := lookup p this fileName in
      ret (mk (defaultEngine this) (View.ext this) (View.name this) (root this)
              (View.engine this) path)
  end.

End View.

(** ** Vocabulary of the statements

    The spec's two error classes are plain [Error]s in the source, told
    apart by their message. *)

Definition ConfigurationError : Exn := Error noDefaultEngine.
Definition EngineLoadError (provider : string) : Exn := Error (noViewEngine provider).

(** The file system as the probes see it: [p] names a regular file. *)
Definition regular (h : Host) (p : string) : bool :=
  match statSync h p with
  | Stats st => isFile st
  | StatFails _ => false
  end.

(** The two paths probed in a directory. *)
Definition exactPath (dir file : string) : string := Path.join [dir; file].

Definition indexPath (ext dir file : string) : string :=
  Path.join [dir; Path.basenameExt file ext; "index" +:+ ext].

(** The candidate location of [name] under a root that is a string. *)
Definition locate (h : Host) (root name : string) : string :=
  match Path.resolve (cwd h) (Some root) name with
  | inr loc => loc
  | inl _ => name
  end.

Definition exactIn (h : Host) (root name : string) : string :=
  let loc := locate h root name in
  exactPath (Path.dirname loc) (Path.basename loc).

Definition indexIn (h : Host) (ext root name : string) : string :=
  let loc := locate h root name in
  indexPath ext (Path.dirname loc) (Path.basename loc).

(** The match under one root, if any, and the probes that decide it. *)
Definition matchIn (h : Host) (ext root name : string) : option string :=
  if regular h (exactIn h root name) then Some (exactIn h root name)
  else if regular h (indexIn h ext root name) then Some (indexIn h ext root name)
  else None.

Definition probesIn (h : Host) (ext root name : string) : list string :=
  if regular h (exactIn h root name) then [exactIn h root name]
  else [exactIn h root name; indexIn h ext root name].

(** A path that [lookup] may hold: none, or a regular file. *)
Definition verified (h : Host) (path : option string) : Prop :=
  forall p, path = Some p -> regular h p = true.

(** A path segment that normalization keeps as it is: no separator in it,
    and neither empty nor [.] nor [..]. *)
Definition plain (seg : string) : bool :=
  forallb (fun c => negb (Path.is_slash c)) (list_ascii_of_string seg)
  && negb (String.eqb seg "") && negb (String.eqb seg ".") && negb (String.eqb seg "..").

(** What [lookup] may answer after the probes [tr]: nothing, or a regular
    file with a non-empty path, which is the path probed last. *)
Definition answers (h : Host) (tr : list string) (path : option string) : Prop :=
  forall p, path = Some p ->
    regular h p = true /\ truthy p = true /\ exists before, tr = before ++ [p].

(** What [lookup] can throw: the [TypeError] of [path.resolve] on a root
    that is not a string, or the system error of [process.cwd()], which
    [path.resolve] calls only behind a root and a name that are both
    relative. *)
Definition lookupThrows (p : Process) (roots : list (option string)) (name : string)
    (e : Exn) : Prop :=
  (exists msg, e = TypeError msg)
  \/ (exists code root,
         e = SystemError code /\ cwdFailure p = Some code
         /\ Path.isAbsolute name = false
         /\ In (Some root) roots /\ Path.isAbsolute root = false).

(** A completion that is a [TypeError]. *)
Definition isTypeError {A} (c : Completion A) : Prop :=
  exists msg, c = Throw (TypeError msg).

(** ** Concrete scenarios

    Hosts, options and worlds on which the statements below are run. *)

Definition demoHost (files : list string) : Host :=
  mkHost "/srv/app"
    (fun p =>
       if existsb (String.eqb p) files then Stats RegularFile
       else if String.eqb p "/views" then Stats Directory
       else StatFails "ENOENT")
    (fun m =>
       if String.eqb m "html" then Exports (JsFunction 7)
       else if String.eqb m "foo" then Exports JsUndefined
       else RequireFails (Error "Cannot find module"))
    (fun _ => None).

(** The same files, every other path refused by the system. *)
Definition deniedHost (files : list string) : Host :=
  mkHost "/srv/app"
    (fun p =>
       if existsb (String.eqb p) files then Stats RegularFile
       else StatFails "EACCES")
    (require (demoHost files))
    (invoke (demoHost files)).

(** Nothing stored, nothing called yet. *)
Definition freshWorld : World := mkWorld ∅ [] [] [].

(** A world in which registry [0] already holds an engine for [.html]. *)
Definition boundWorld : World := assign 0 ".html" 7 freshWorld.

Definition demoOptions (root : Options.Root) : Options.t :=
  Options.mk (Some "html") (Some 0) root.

Definition demoView (root : Options.Root) : View.t :=
  View.mk (Some "html") ".html" "index" root (Some 7) None.

(** ** Properties of the path model *)

Example path_extname :
  map Path.extname ["index.html"; "index"; ".profile"; "a/b.c/d"; "x.tar.gz"; "..";
                    "index."; "a.b/"; "..."; ""]
  = [".html"; ""; ""; ""; ".gz"; ""; "."; ".b"; "."; ""].
Proof. reflexivity. Qed.

Example path_resolve :
  map (fun '(r, n) => Path.resolve "/srv/app" r n)
      [(Some "/views", "index.html"); (Some "views", "a/b.html");
       (Some "/views", "/abs/x.html"); (None, "/abs/../x.html/");
       (Some "/views", "../up.html"); (Some "", "x.html"); (Some "/", "..")]
  = [inr "/views/index.html"; inr "/srv/app/views/a/b.html";
     inr "/abs/x.html"; inr "/x.html"; inr "/up.html"; inr "/srv/app/x.html"; inr "/"].
Proof. reflexivity. Qed.

Example path_dirname_basename :
  map (fun p => (Path.dirname p, Path.basename p))
      ["/views/index.html"; "/index.html"; "/"; "/a/b/c.x"; "a"; ""; "/a/b/"]
  = [("/views", "index.html"); ("/", "index.html"); ("/", ""); ("/a/b", "c.x");
     (".", "a"); (".", ""); ("/a", "b")].
Proof. reflexivity. Qed.

Example path_join :
  map Path.join [["/views"; "index.html"]; ["/views"; "index"; "index.html"];
                 ["/"; "x"]; ["/a"; ""; "i.html"]; ["/a"; ".."; ".."; "b/"]; [""]; ["a"; "../.."]]
  = ["/views/index.html"; "/views/index/index.html"; "/x"; "/a/i.html"; "/b/"; "."; ".."].
Proof. reflexivity. Qed.

Example path_basenameExt :
  map (fun '(p, e) => Path.basenameExt p e)
      [("index.html", ".html"); (".html", ".html"); ("index.htm", ".html");
       ("index", ""); ("a.b.html", ".html"); ("tml", ".html"); ("a/", "ba");
       ("x/tml/", ".html"); ("/a/.html", ".html"); ("aaa/", "a")]
  = ["index"; ""; "index.htm"; "index"; "a.b"; "tml"; "a/"; "tml/"; ".html"; "aa"].
Proof. reflexivity. Qed.

Lemma truthy_app_l a b : truthy a = true -> truthy (a +:+ b) = true.
Proof. destruct a; simpl; [discriminate | reflexivity]. Qed.

Lemma normalize_truthy p : truthy (Path.normalize p) = true.
Proof.
  unfold Path.normalize.
  destruct (String.eqb p ""); [reflexivity |].
  destruct (String.eqb (Path.normalizeString p (negb (Path.isAbsolute p))) "") eqn:Hbody.
  - destruct (Path.isAbsolute p), (Path.endsWithSlash p); reflexivity.
  - assert (Hb : truthy (Path.normalizeString p (negb (Path.isAbsolute p))) = true)
      by (unfold truthy; rewrite Hbody; reflexivity).
    destruct (Path.isAbsolute p); [reflexivity |].
    destruct (Path.endsWithSlash p); [apply truthy_app_l |]; exact Hb.
Qed.

Lemma join_truthy parts : truthy (Path.join parts) = true.
Proof.
  unfold Path.join.
  destruct (filter _ parts); [reflexivity | apply normalize_truthy].
Qed.

Lemma resolve_Some (cwd : string) root name :
  exists loc, Path.resolve cwd (Some root) name = inr loc.
Proof.
  unfold Path.resolve.
  destruct (Path.isAbsolute name); [eauto |].
  destruct (Path.isAbsolute root); eauto.
Qed.

Lemma processCwd_live (h : Host) : processCwd h = cwd h.
Proof. reflexivity. Qed.

Lemma resolve_locate (h : Host) root name :
  Path.resolve (cwd h) (Some root) name = inr (locate h root name).
Proof.
  unfold locate.
  destruct (resolve_Some (cwd h) root name) as [loc ->]; reflexivity.
Qed.

(** An absolute name is resolved without looking at the root. *)
Lemma resolve_absolute cwd root name :
  Path.isAbsolute name = true ->
  Path.resolve cwd root name = inr ("/" +:+ Path.normalizeString (name +:+ "/") false).
Proof. unfold Path.resolve; intros ->; reflexivity. Qed.

Lemma upToDot_last l e before :
  Path.upToDot l = Some (e, before) -> exists e', e = e' ++ ["."%char].
Proof.
  revert e before; induction l as [| c l IH]; intros e before; simpl; [discriminate |].
  destruct (Path.is_dot c) eqn:Hc.
  - intros [= <- <-]. apply Ascii.eqb_eq in Hc as ->. exists []; reflexivity.
  - destruct (Path.upToDot l) as [[e0 b0] |]; [| discriminate].
    intros [= <- <-]. destruct (IH _ _ eq_refl) as [e' ->].
    exists (c :: e'); reflexivity.
Qed.

(** An extension taken from a name is empty or opens with the dot. *)
Lemma extname_dot p :
  Path.extname p = "" \/ exists s, Path.extname p = String "." s.
Proof.
  unfold Path.extname.
  destruct (Path.upToDot _) as [[e before] |] eqn:He; [| now left].
  destruct before; [now left |].
  destruct (String.eqb (Path.basename p) ".."); [now left |].
  right. destruct (upToDot_last _ _ _ He) as [e' ->].
  rewrite rev_app_distr; simpl. eauto.
Qed.

(** ** The trace of probes *)

Lemma logStats_nil w : logStats [] w = w.
Proof. destruct w; unfold logStats; simpl; now rewrite app_nil_r. Qed.

Lemma logStats_app a b w : logStats b (logStats a w) = logStats (a ++ b) w.
Proof. unfold logStats; simpl; now rewrite app_assoc. Qed.

(** ** [tryStat] and [resolve]: one directory *)

Lemma tryStat_run (p : Process) path w :
  View.tryStat p path w
  = (Normal match statSync (host p) path with Stats st => Some st | StatFails _ => None end,
     logStats [path] w).
Proof. reflexivity. Qed.

Lemma statIsFile_regular (h : Host) p :
  View.statIsFile match statSync h p with Stats st => Some st | StatFails _ => None end
  = regular h p.
Proof. unfold regular; now destruct (statSync h p). Qed.

Lemma resolve_exact (p : Process) this dir file w :
  regular (host p) (exactPath dir file) = true ->
  View.resolve p this dir file w
  = (Normal (Some (exactPath dir file)), logStats [exactPath dir file] w).
Proof.
  intros Hreg. unfold View.resolve, bind.
  rewrite tryStat_run, statIsFile_regular.
  fold (exactPath dir file). now rewrite Hreg.
Qed.

Lemma resolve_fallback (p : Process) this dir file w :
  regular (host p) (exactPath dir file) = false ->
  View.resolve p this dir file w
  = (Normal (if regular (host p) (indexPath (View.ext this) dir file)
             then Some (indexPath (View.ext this) dir file) else None),
     logStats [exactPath dir file; indexPath (View.ext this) dir file] w).
Proof.
  intros Hreg. unfold View.resolve, bind.
  rewrite tryStat_run, statIsFile_regular.
  fold (exactPath dir file). rewrite Hreg.
  rewrite tryStat_run, statIsFile_regular.
  fold (indexPath (View.ext this) dir file).
  rewrite logStats_app.
  now destruct (regular (host p) (indexPath (View.ext this) dir file)).
Qed.

(** ** [lookup]: one root, then the loop *)

Lemma lookupIn_run (h : Host) this name root w :
  View.lookupIn h this name (Some root) w
  = (Normal (matchIn h (View.ext this) root name),
     logStats (probesIn h (View.ext this) root name) w).
Proof.
  unfold View.lookupIn, View.pathResolve, bind.
  rewrite processCwd_live, resolve_locate. unfold ret at 1.
  unfold matchIn, probesIn.
  destruct (regular h (exactIn h root name)) eqn:Hexact.
  - now apply resolve_exact.
  - unfold exactIn in Hexact. now rewrite resolve_fallback.
Qed.

Lemma matchIn_truthy (h : Host) ext root name p :
  matchIn h ext root name = Some p -> View.found (Some p) = true.
Proof.
  unfold matchIn, View.found, truthyOpt.
  destruct (regular h (exactIn h root name)).
  - intros [= <-]. apply join_truthy.
  - destruct (regular h (indexIn h ext root name)); [| discriminate].
    intros [= <-]. apply join_truthy.
Qed.

Lemma lookupLoop_found (p : Process) this name roots path w :
  View.found (Some path) = true ->
  View.lookupLoop p this name roots (Some path) w = (Normal (Some path), w).
Proof. intros Hp. destruct roots; cbn [View.lookupLoop]; [| rewrite Hp]; reflexivity. Qed.

Lemma lookupLoop_misses (h : Host) this name pre rest w :
  (forall Rj, In Rj pre -> matchIn h (View.ext this) Rj name = None) ->
  View.lookupLoop h this name (map Some pre ++ rest) None w
  = View.lookupLoop h this name rest None
      (logStats (flat_map (fun Rj => probesIn h (View.ext this) Rj name) pre) w).
Proof.
  revert w; induction pre as [| R pre IH]; intros w Hmiss;
    cbn [map app flat_map View.lookupLoop].
  - now rewrite logStats_nil.
  - change (View.found None) with false; cbv iota. unfold bind at 1. rewrite lookupIn_run.
    rewrite (Hmiss R) by now left.
    rewrite IH by (intros Rj HRj; apply Hmiss; now right).
    now rewrite logStats_app.
Qed.

Lemma resolve_run (p : Process) this dir file w :
  View.resolve p this dir file w
  = (Normal (if regular (host p) (exactPath dir file) then Some (exactPath dir file)
             else if regular (host p) (indexPath (View.ext this) dir file)
                  then Some (indexPath (View.ext this) dir file)
                  else None),
     logStats (if regular (host p) (exactPath dir file) then [exactPath dir file]
               else [exactPath dir file; indexPath (View.ext this) dir file]) w).
Proof.
  destruct (regular (host p) (exactPath dir file)) eqn:Hexact.
  - now apply resolve_exact.
  - now apply resolve_fallback.
Qed.

Lemma resolve_verified (p : Process) this dir file w :
  exists q tr,
    View.resolve p this dir file w = (Normal q, logStats tr w) /\ verified (host p) q.
Proof.
  rewrite resolve_run. do 2 eexists; split; [reflexivity |].
  intros f. destruct (regular (host p) (exactPath dir file)) eqn:H1.
  - now intros [= <-].
  - destruct (regular (host p) (indexPath (View.ext this) dir file)) eqn:H2;
      [| discriminate].
    now intros [= <-].
Qed.

(** [process.cwd()] is reached, and its failure thrown, only behind a root
    and a name that are both relative. *)
Lemma resolve_CwdFailure cwd root name code :
  Path.resolve cwd root name = inl (Path.CwdFailure code) ->
  cwd = Path.Gone code /\ Path.isAbsolute name = false
  /\ exists r, root = Some r /\ Path.isAbsolute r = false.
Proof.
  unfold Path.resolve.
  destruct (Path.isAbsolute name); [discriminate |].
  destruct root as [r |]; [| discriminate].
  destruct (Path.isAbsolute r) eqn:Hr; [discriminate |].
  destruct cwd as [dir | code']; [discriminate |].
  intros [= ->]. eauto.
Qed.

Lemma processCwd_Gone (p : Process) code :
  processCwd p = Path.Gone code -> cwdFailure p = Some code.
Proof. unfold processCwd. destruct (cwdFailure p); congruence. Qed.

Lemma lookupIn_cases (p : Process) this name root w :
  (exists e, View.lookupIn p this name root w = (Throw e, w)
             /\ lookupThrows p [root] name e)
  \/ (exists q tr, View.lookupIn p this name root w = (Normal q, logStats tr w)
                   /\ verified (host p) q).
Proof.
  unfold View.lookupIn, View.pathResolve, bind.
  destruct (Path.resolve (processCwd p) root name) as [[msg | code] | loc] eqn:Hloc.
  - left. exists (TypeError msg). split; [reflexivity |]. left; eauto.
  - left. exists (SystemError code). split; [reflexivity |]. right.
    destruct (resolve_CwdFailure _ _ _ _ Hloc) as (Hgone & Hname & r & -> & Hr).
    exists code, r. split; [reflexivity |]. split; [now apply processCwd_Gone |].
    split; [exact Hname |]. split; [now left | exact Hr].
  - right. unfold ret at 1. apply resolve_verified.
Qed.

Lemma lookupThrows_more (p : Process) roots roots' name e :
  (forall root, In root roots -> In root roots') ->
  lookupThrows p roots name e -> lookupThrows p roots' name e.
Proof.
  intros Hincl [Htype | (code & root & He & Hgone & Hname & Hin & Hroot)]; [now left |].
  right. exists code, root. auto 10.
Qed.

Lemma lookupLoop_cases (p : Process) this name roots : forall path w,
  verified (host p) path ->
  exists tr,
    (exists e, View.lookupLoop p this name roots path w = (Throw e, logStats tr w)
               /\ lookupThrows p roots name e)
    \/ (exists q, View.lookupLoop p this name roots path w = (Normal q, logStats tr w)
                  /\ verified (host p) q).
Proof.
  induction roots as [| root rest IH]; intros path w Hpath; cbn [View.lookupLoop].
  - exists []; right; exists path. now rewrite logStats_nil.
  - destruct (View.found path).
    + exists []; right; exists path. now rewrite logStats_nil.
    + unfold bind.
      destruct (lookupIn_cases p this name root w) as [(e & -> & He) | (q & tr & -> & Hq)].
      * exists []; left; exists e. rewrite logStats_nil. split; [reflexivity |].
        apply (lookupThrows_more p [root]); [| exact He].
        intros r [<- | []]. now left.
      * destruct (IH q (logStats tr w) Hq) as [tr' [(e & -> & He) | (q' & -> & Hq')]];
          exists (tr ++ tr'); rewrite logStats_app; [left | right]; eauto.
        exists e. split; [reflexivity |].
        apply (lookupThrows_more p rest); [| exact He]. intros r Hr. now right.
Qed.

Lemma verified_None (h : Host) : verified h None.
Proof. intros p; discriminate. Qed.

Lemma lookup_cases (p : Process) this name w :
  exists tr,
    (exists e, View.lookup p this name w = (Throw e, logStats tr w)
               /\ lookupThrows p (concatRoot (View.root this)) name e)
    \/ (exists q, View.lookup p this name w = (Normal q, logStats tr w)
                  /\ verified (host p) q).
Proof. apply lookupLoop_cases, verified_None. Qed.

(** With roots that are strings the loop cannot throw. *)
Lemma lookupLoop_strings (h : Host) this name roots : forall path w,
  exists q w', View.lookupLoop h this name (map Some roots) path w = (Normal q, w').
Proof.
  induction roots as [| root rest IH]; intros path w; cbn [map View.lookupLoop].
  - now do 2 eexists.
  - destruct (View.found path); [now do 2 eexists |].
    unfold bind. rewrite lookupIn_run. apply IH.
Qed.

(** The loop sees the file system through [regular] alone. *)
Lemma lookupLoop_regular (p p' : Process) this name roots : forall path w,
  processCwd p' = processCwd p ->
  (forall f, regular (host p') f = regular (host p) f) ->
  View.lookupLoop p' this name roots path w = View.lookupLoop p this name roots path w.
Proof.
  induction roots as [| root rest IH]; intros path w Hcwd Hreg; cbn [View.lookupLoop];
    [reflexivity |].
  destruct (View.found path); [reflexivity |].
  unfold bind, View.lookupIn, View.pathResolve. rewrite Hcwd.
  destruct (Path.resolve (processCwd p) root name) as [[msg | code] | loc];
    [reflexivity | reflexivity |].
  unfold bind, ret. rewrite !resolve_run, !Hreg.
  destruct (regular (host p) _); [now apply IH |].
  destruct (regular (host p) _); now apply IH.
Qed.

(** ** The registry *)

Lemma assign_lookup obj key fn w : (heap (assign obj key fn w) !!! obj) !! key = Some fn.
Proof.
  unfold assign; simpl.
  now rewrite lookup_total_insert_eq, lookup_insert_eq.
Qed.

Lemma bindEngine_bound (h : Host) registry ext fn w :
  (heap w !!! registry) !! ext = Some fn ->
  View.bindEngine h (Some registry) ext w = (Normal (Some fn), w).
Proof.
  intros Hbound. unfold View.bindEngine, bind, getProp.
  rewrite Hbound. unfold ret. now rewrite Hbound.
Qed.

Lemma bindEngine_unbound (h : Host) registry ext w :
  (heap w !!! registry) !! ext = None ->
  View.bindEngine h (Some registry) ext w
  = match require h (substr1 ext) with
    | RequireFails e => (Throw e, logLoad (substr1 ext) w)
    | Exports v =>
        match asFunction v with
        | None => (Throw (EngineLoadError (substr1 ext)), logLoad (substr1 ext) w)
        | Some fn => (Normal (Some fn), assign registry ext fn (logLoad (substr1 ext) w))
        end
    end.
Proof.
  intros Hunbound. unfold View.bindEngine, bind, getProp at 1.
  rewrite Hunbound. unfold requireExpress. cbn [host live].
  destruct (require h (substr1 ext)) as [v | e]; [| reflexivity].
  destruct (asFunction v) as [fn |]; [| reflexivity].
  unfold setProp, getProp. now rewrite assign_lookup.
Qed.

(** Whatever [bindEngine] returns is in the registry when it returns, and
    loading happened only if the registry lacked it. *)
Lemma bindEngine_Normal (h : Host) engines ext w e w1 :
  View.bindEngine h engines ext w = (Normal e, w1) ->
  exists registry fn,
    engines = Some registry /\ e = Some fn
    /\ (heap w1 !!! registry) !! ext = Some fn
    /\ stats w1 = stats w /\ calls w1 = calls w
    /\ loads w1 = loads w ++ match (heap w !!! registry) !! ext with
                             | Some _ => []
                             | None => [substr1 ext]
                             end.
Proof.
  destruct engines as [registry |]; [| discriminate].
  destruct ((heap w !!! registry) !! ext) as [fn |] eqn:Hentry.
  - rewrite (bindEngine_bound _ _ _ fn) by assumption.
    intros [= <- <-]. exists registry, fn. rewrite Hentry, app_nil_r. auto 10.
  - rewrite bindEngine_unbound by assumption.
    destruct (require h (substr1 ext)) as [v | e0]; [| discriminate].
    destruct (asFunction v) as [fn |]; [| discriminate].
    intros [= <- <-]. exists registry, fn.
    rewrite assign_lookup, Hentry. auto 10.
Qed.

(** ** The constructor, stage by stage *)

Lemma constructor_stages (h : Host) name opts w ext fileName :
  View.inferExtension name (Options.defaultEngine opts) = Normal (ext, fileName) ->
  View.constructor h name (Some opts) w
  = match View.bindEngine h (Options.engines opts) ext w with
    | (Throw e, w1) => (Throw e, w1)
    | (Normal engine, w1) =>
        let this := View.mk (Options.defaultEngine opts) ext name (Options.root opts)
                            engine None in
        match View.lookup h this fileName w1 with
        | (Throw e, w2) => (Throw e, w2)
        | (Normal path, w2) =>
            (Normal (View.mk (Options.defaultEngine opts) ext name (Options.root opts)
                             engine path), w2)
        end
    end.
Proof.
  intros Hext. unfold View.constructor. cbv zeta.
  change (default Options.empty (Some opts)) with opts. rewrite Hext.
  unfold bind.
  destruct (View.bindEngine h (Options.engines opts) ext w) as [[engine | e] w1];
    [| reflexivity].
  cbn [View.defaultEngine View.ext View.name View.root View.engine].
  destruct (View.lookup h _ fileName w1) as [[path | e] w2]; reflexivity.
Qed.

Lemma inferExtension_named name defaultEngine :
  truthy (Path.extname name) = true ->
  View.inferExtension name defaultEngine = Normal (Path.extname name, name).
Proof. intros Hext. unfold View.inferExtension. now rewrite Hext. Qed.

Lemma inferExtension_default name d :
  Path.extname name = "" -> truthy d = true ->
  View.inferExtension name (Some d)
  = Normal (if firstIsNotDot d then "." +:+ d else d,
            name +:+ (if firstIsNotDot d then "." +:+ d else d)).
Proof.
  intros Hext Hd. unfold View.inferExtension. rewrite Hext.
  cbn [truthy String.eqb negb truthyOpt andb]. now rewrite Hd.
Qed.

Lemma inferExtension_dot name defaultEngine ext fileName :
  View.inferExtension name defaultEngine = Normal (ext, fileName) ->
  ext = String "." (substr1 ext).
Proof.
  unfold View.inferExtension.
  destruct (extname_dot name) as [-> | [s ->]].
  - cbn [truthy String.eqb negb andb].
    destruct defaultEngine as [d |]; cbn [truthyOpt]; [| discriminate].
    destruct (truthy d) eqn:Hd; [| discriminate]. cbn [negb].
    destruct d as [| c d]; [discriminate |].
    cbn [firstIsNotDot]. destruct (Path.is_dot c) eqn:Hc; cbn [negb].
    + apply Ascii.eqb_eq in Hc as ->. now intros [= <- _].
    + now intros [= <- _].
  - cbn [truthy String.eqb negb andb]. now intros [= <- _].
Qed.

Lemma inferExtension_throws name defaultEngine :
  Path.extname name = "" -> truthyOpt defaultEngine = false ->
  View.inferExtension name defaultEngine = Throw ConfigurationError.
Proof.
  intros Hext Hd. unfold View.inferExtension. rewrite Hext, Hd. reflexivity.
Qed.

(** ** Lookup over the roots *)

(** C1: Roots are tried in order and the search stops at the first root
    with a match: when no root of [pre] has a match and [Ri] has the match
    [p], [lookup] over [pre ++ Ri :: post] returns [p], and the files
    probed are those of [pre] followed by those of [Ri]: the roots of [post]
    are not probed, whatever they are. *)
Theorem lookup_stops_at_first_match (h : Host) this name pre Ri post p w :
  concatRoot (View.root this) = map Some (pre ++ Ri :: post) ->
  (forall Rj, In Rj pre -> matchIn h (View.ext this) Rj name = None) ->
  matchIn h (View.ext this) Ri name = Some p ->
  View.lookup h this name w
  = (Normal (Some p),
     logStats (flat_map (fun Rj => probesIn h (View.ext this) Rj name) (pre ++ [Ri])) w).
Proof.
  intros Hroots Hmiss Hhit. unfold View.lookup. rewrite Hroots, map_app.
  rewrite lookupLoop_misses by assumption.
  cbn [map View.lookupLoop]. change (View.found None) with false; cbv iota.
  unfold bind. rewrite lookupIn_run, Hhit.
  rewrite lookupLoop_found by eauto using matchIn_truthy.
  rewrite logStats_app, flat_map_app. cbn [flat_map]. now rewrite app_nil_r.
Qed.

Lemma lookup_stops_at_first_match_witness :
  View.lookup (demoHost ["/views/index.html"; "/c/index.html"])
              (demoView (Options.Many ["/a"; "b"; "/views"; "/c"])) "index.html" freshWorld
  = (Normal (Some "/views/index.html"),
     logStats ["/a/index.html"; "/a/index/index.html"; "/srv/app/b/index.html";
               "/srv/app/b/index/index.html"; "/views/index.html"] freshWorld).
Proof.
  apply (lookup_stops_at_first_match
           (demoHost ["/views/index.html"; "/c/index.html"])
           (demoView (Options.Many ["/a"; "b"; "/views"; "/c"])) "index.html"
           ["/a"; "b"] "/views" ["/c"] "/views/index.html" freshWorld).
  - reflexivity.
  - intros Rj [<- | [<- | []]]; reflexivity.
  - reflexivity.
Defined.

(** C2: In one directory the file itself is probed first and wins: when
    [dir/file] is a regular file it is returned after that single probe,
    whether or not the index file exists; the index file
    [dir/<file without ext>/index<ext>] is probed second and returned only
    when the first probe failed.  For the name [index], the default engine
    [html] and the root [/views], the path is [/views/index.html] when that
    is a file, and [/views/index/index.html] when only that one is. *)
Theorem exact_file_before_index (h : Host) :
  (forall this dir file w,
      regular h (exactPath dir file) = true ->
      View.resolve h this dir file w
      = (Normal (Some (exactPath dir file)), logStats [exactPath dir file] w))
  /\ (forall this dir file w,
      regular h (exactPath dir file) = false ->
      regular h (indexPath (View.ext this) dir file) = true ->
      View.resolve h this dir file w
      = (Normal (Some (indexPath (View.ext this) dir file)),
         logStats [exactPath dir file; indexPath (View.ext this) dir file] w))
  /\ (forall opts w v w',
      Options.defaultEngine opts = Some "html" ->
      concatRoot (Options.root opts) = [Some "/views"] ->
      View.constructor h "index" (Some opts) w = (Normal v, w') ->
      (regular h "/views/index.html" = true ->
       View.path v = Some "/views/index.html")
      /\ (regular h "/views/index.html" = false ->
          regular h "/views/index/index.html" = true ->
          View.path v = Some "/views/index/index.html")).
Proof.
  split; [| split].
  - intros; now apply resolve_exact.
  - intros this dir file w Hexact Hindex. rewrite resolve_fallback by assumption.
    cbn [host live]. now rewrite Hindex.
  - intros opts w v w' Hengine Hroots.
    rewrite (constructor_stages h "index" opts w ".html" "index.html")
      by (rewrite Hengine; reflexivity).
    destruct (View.bindEngine h (Options.engines opts) ".html" w) as [[engine | e] w1];
      [| discriminate].
    cbv zeta. unfold View.lookup. cbn [View.root]. rewrite Hroots.
    cbn [View.lookupLoop]. change (View.found None) with false; cbv iota.
    unfold bind. rewrite lookupIn_run. unfold ret.
    intros [= <- _]. cbn [View.path View.ext].
    unfold matchIn.
    change (exactIn h "/views" "index.html") with "/views/index.html".
    change (indexIn h ".html" "/views" "index.html") with "/views/index/index.html".
    split.
    + now intros ->.
    + now intros -> ->.
Qed.

Lemma exact_file_before_index_witness :
  (View.constructor (demoHost ["/views/index.html"; "/views/index/index.html"]) "index"
                    (Some (demoOptions (Options.One "/views"))) freshWorld
   = (Normal (View.mk (Some "html") ".html" "index" (Options.One "/views") (Some 7)
                      (Some "/views/index.html")),
      logStats ["/views/index.html"] (assign 0 ".html" 7 (logLoad "html" freshWorld)))
   /\ View.path
        (View.mk (Some "html") ".html" "index" (Options.One "/views") (Some 7)
                 (Some "/views/index.html"))
      = Some "/views/index.html")
  /\ View.resolve (demoHost ["/views/index/index.html"]) (demoView (Options.One "/views"))
                  "/views" "index.html" freshWorld
     = (Normal (Some "/views/index/index.html"),
        logStats ["/views/index.html"; "/views/index/index.html"] freshWorld)
  /\ View.resolve (demoHost ["/views/index.html"; "/views/index/index.html"])
                  (demoView (Options.One "/views")) "/views" "index.html" freshWorld
     = (Normal (Some "/views/index.html"), logStats ["/views/index.html"] freshWorld).
Proof.
  split; [| split].
  - split; [reflexivity |].
    apply (proj2 (proj2 (exact_file_before_index
                           (demoHost ["/views/index.html"; "/views/index/index.html"])))
             (demoOptions (Options.One "/views")) freshWorld _
             (logStats ["/views/index.html"] (assign 0 ".html" 7 (logLoad "html" freshWorld))));
      reflexivity.
  - apply (proj1 (proj2 (exact_file_before_index (demoHost ["/views/index/index.html"])))
             (demoView (Options.One "/views")) "/views" "index.html" freshWorld);
      reflexivity.
  - apply (proj1 (exact_file_before_index
                    (demoHost ["/views/index.html"; "/views/index/index.html"]))
             (demoView (Options.One "/views")) "/views" "index.html" freshWorld);
      reflexivity.
Defined.

(** ** Construction *)

(** C3: A name without extension and no default engine: the constructor
    throws the configuration error ("No default engine was specified and no
    extension was provided.") and hands back the world it was given: no
    [statSync], no [require], no write.  An empty [defaultEngine] counts as
    none, being falsy. *)
Theorem no_extension_no_default_engine (h : Host) name options w :
  Path.extname name = "" ->
  truthyOpt (Options.defaultEngine (default Options.empty options)) = false ->
  View.constructor h name options w = (Throw ConfigurationError, w)
  /\ stats (snd (View.constructor h name options w)) = stats w.
Proof.
  intros Hext Hengine.
  assert (Hrun : View.constructor h name options w = (Throw ConfigurationError, w)).
  { unfold View.constructor. cbv zeta.
    now rewrite (inferExtension_throws _ _ Hext Hengine). }
  now rewrite Hrun.
Qed.

Lemma no_extension_no_default_engine_witness :
  View.constructor (demoHost ["/views/index.html"]) "index"
                   (Some (Options.mk None (Some 0) (Options.One "/views"))) freshWorld
  = (Throw ConfigurationError, freshWorld)
  /\ stats (snd (View.constructor (demoHost ["/views/index.html"]) "index"
                   (Some (Options.mk None (Some 0) (Options.One "/views"))) freshWorld))
     = stats freshWorld.
Proof.
  apply (no_extension_no_default_engine (demoHost ["/views/index.html"]) "index"
           (Some (Options.mk None (Some 0) (Options.One "/views"))) freshWorld);
    reflexivity.
Defined.

(** [lookup] touches nothing but the trace of probes. *)
Lemma lookup_frame (p : Process) this name w :
  exists r tr, View.lookup p this name w = (r, logStats tr w).
Proof.
  destruct (lookup_cases p this name w) as [tr [(e & -> & _) | (q & -> & _)]]; eauto.
Qed.


Lemma constructor_Normal (h : Host) name opts w v w' :
  View.constructor h name (Some opts) w = (Normal v, w') ->
  exists ext fileName w1,
    View.inferExtension name (Options.defaultEngine opts) = Normal (ext, fileName)
    /\ View.bindEngine h (Options.engines opts) ext w = (Normal (View.engine v), w1)
    /\ View.lookup h
         (View.mk (Options.defaultEngine opts) ext name (Options.root opts)
                  (View.engine v) None) fileName w1
       = (Normal (View.path v), w')
    /\ v = View.mk (Options.defaultEngine opts) ext name (Options.root opts)
                   (View.engine v) (View.path v).
Proof.
  destruct (View.inferExtension name (Options.defaultEngine opts))
    as [[ext fileName] | e] eqn:Hext.
  - rewrite (constructor_stages _ _ _ _ _ _ Hext).
    destruct (View.bindEngine h (Options.engines opts) ext w) as [[engine | e] w1]
      eqn:Hbind; [| discriminate].
    cbv zeta.
    destruct (View.lookup h _ fileName w1) as [[path | e] w2] eqn:Hlookup;
      [| discriminate].
    intros [= <- <-]. exists ext, fileName, w1. cbn [View.engine View.path]. auto.
  - unfold View.constructor. cbv zeta.
    change (default Options.empty (Some opts)) with opts. rewrite Hext. discriminate.
Qed.



(** C5 (as amended): Two views constructed one after the other on the
    same registry and with the same extension: the second construction
    requires nothing, both views hold the one function that the registry
    holds under the extension, before and after the second construction;
    in all the module was required once when the registry had no entry at
    first, and not at all when it had one. *)
Theorem provider_loaded_once (h : Host) name1 name2 opts1 opts2 registry w v1 w1 v2 w2 :
  Options.engines opts1 = Some registry ->
  Options.engines opts2 = Some registry ->
  View.constructor h name1 (Some opts1) w = (Normal v1, w1) ->
  View.constructor h name2 (Some opts2) w1 = (Normal v2, w2) ->
  View.ext v2 = View.ext v1 ->
  loads w2 = loads w1
  /\ (exists fn,
         View.engine v1 = Some fn /\ View.engine v2 = Some fn
         /\ (heap w1 !!! registry) !! View.ext v1 = Some fn
         /\ (heap w2 !!! registry) !! View.ext v1 = Some fn)
  /\ loads w2 = loads w ++ match (heap w !!! registry) !! View.ext v1 with
                           | Some _ => []
                           | None => [substr1 (View.ext v1)]
                           end.
Proof.
  intros Hreg1 Hreg2 Hfirst Hsecond Hsame.
  destruct (constructor_Normal _ _ _ _ _ _ Hfirst)
    as (ext1 & file1 & u1 & _ & Hbind1 & Hlook1 & Hv1).
  destruct (constructor_Normal _ _ _ _ _ _ Hsecond)
    as (ext2 & file2 & u2 & _ & Hbind2 & Hlook2 & Hv2).
  assert (He1 : View.ext v1 = ext1) by (rewrite Hv1; reflexivity).
  assert (He2 : View.ext v2 = ext2) by (rewrite Hv2; reflexivity).
  assert (ext2 = ext1) as -> by congruence. rewrite He1. clear Hv1 Hv2 He2 Hsame.
  destruct (lookup_frame h
              (View.mk (Options.defaultEngine opts1) ext1 name1 (Options.root opts1)
                       (View.engine v1) None) file1 u1) as (r1 & tr1 & Hframe1).
  rewrite Hlook1 in Hframe1. injection Hframe1 as _ ->.
  destruct (lookup_frame h
              (View.mk (Options.defaultEngine opts2) ext1 name2 (Options.root opts2)
                       (View.engine v2) None) file2 u2) as (r2 & tr2 & Hframe2).
  rewrite Hlook2 in Hframe2. injection Hframe2 as _ ->.
  destruct (bindEngine_Normal _ _ _ _ _ _ Hbind1)
    as (reg1 & fn1 & Hr1 & Hfn1 & Hentry1 & _ & _ & Hloads1).
  assert (reg1 = registry) as -> by congruence.
  assert (Hentry : (heap (logStats tr1 u1) !!! registry) !! ext1 = Some fn1)
    by exact Hentry1.
  rewrite Hreg2, (bindEngine_bound _ _ _ _ _ Hentry) in Hbind2.
  injection Hbind2 as Hfn2 <-.
  split; [reflexivity |]. split.
  - exists fn1. auto.
  - exact Hloads1.
Qed.

Lemma provider_loaded_once_witness :
  loads (logStats ["/views/about.html"; "/views/about/index.html"]
           (logStats ["/views/index.html"] (assign 0 ".html" 7 (logLoad "html" freshWorld))))
  = loads freshWorld ++ ["html"].
Proof.
  apply (provider_loaded_once (demoHost ["/views/index.html"]) "index" "about.html"
           (demoOptions (Options.One "/views")) (demoOptions (Options.Many ["/views"])) 0
           freshWorld
           (View.mk (Some "html") ".html" "index" (Options.One "/views") (Some 7)
                    (Some "/views/index.html"))
           (logStats ["/views/index.html"] (assign 0 ".html" 7 (logLoad "html" freshWorld)))
           (View.mk (Some "html") ".html" "about.html" (Options.Many ["/views"]) (Some 7) None)
           (logStats ["/views/about.html"; "/views/about/index.html"]
              (logStats ["/views/index.html"]
                 (assign 0 ".html" 7 (logLoad "html" freshWorld))))
           eq_refl eq_refl eq_refl eq_refl eq_refl).
Defined.

(** C5 as stated fails on a registry that already holds an engine for the
    extension: both constructions succeed and the module is never
    required. *)
Lemma bound_registry_never_loads :
  View.constructor (demoHost ["/views/index.html"]) "index"
                   (Some (demoOptions (Options.One "/views"))) boundWorld
  = (Normal (View.mk (Some "html") ".html" "index" (Options.One "/views") (Some 7)
                     (Some "/views/index.html")),
     logStats ["/views/index.html"] boundWorld)
  /\ View.constructor (demoHost ["/views/index.html"]) "about.html"
                      (Some (demoOptions (Options.One "/views")))
                      (logStats ["/views/index.html"] boundWorld)
     = (Normal (View.mk (Some "html") ".html" "about.html" (Options.One "/views") (Some 7)
                        None),
        logStats ["/views/index.html"; "/views/about.html"; "/views/about/index.html"]
                 boundWorld)
  /\ loads (logStats ["/views/index.html"; "/views/about.html"; "/views/about/index.html"]
                     boundWorld) = []
  /\ loads boundWorld = [].
Proof. repeat split. Qed.

(** ** Probes *)

Lemma regular_iff (h : Host) p : regular h p = true <-> statSync h p = Stats RegularFile.
Proof.
  unfold regular. destruct (statSync h p) as [[] | code]; simpl; split;
    congruence.
Qed.

(** C6 (as amended): A probe accepts a path only when [statSync] returns
    the [Stats] of a regular file: a directory, any other kind of file and
    every failure of [statSync], whatever its code, give a miss.  [tryStat]
    and [resolve] never throw.  [lookup] returns only regular files and
    sees the file system only through the regular-file test, so that two
    processes that agree on it (one failing where the other finds a
    directory or fails differently) give the same lookup.  The one
    file-system error [lookup] lets through is not a probe's: it is the
    failure of [process.cwd()] inside [path.resolve], reached only behind a
    root and a name that are both relative; while the working directory is
    there, [lookup] over roots that are strings does not throw at all. *)
Theorem probes_accept_regular_files_only (p : Process) this name w :
  (forall path u, exists st,
      View.tryStat p path u = (Normal st, logStats [path] u)
      /\ (View.statIsFile st = true <-> statSync (host p) path = Stats RegularFile))
  /\ (forall dir file u, exists q u',
         View.resolve p this dir file u = (Normal q, u')
         /\ forall path, q = Some path -> statSync (host p) path = Stats RegularFile)
  /\ (forall code, fst (View.lookup p this name w) = Throw (SystemError code) ->
                   cwdFailure p = Some code
                   /\ Path.isAbsolute name = false
                   /\ exists root, In (Some root) (concatRoot (View.root this))
                                   /\ Path.isAbsolute root = false)
  /\ (forall path, fst (View.lookup p this name w) = Normal (Some path) ->
                   statSync (host p) path = Stats RegularFile)
  /\ (forall roots, cwdFailure p = None ->
                    concatRoot (View.root this) = map Some roots ->
                    exists q, fst (View.lookup p this name w) = Normal q)
  /\ (forall p', processCwd p' = processCwd p ->
                 (forall path, regular (host p') path = regular (host p) path) ->
                 View.lookup p' this name w = View.lookup p this name w).
Proof.
  split; [| split; [| split; [| split; [| split]]]].
  - intros path u. eexists. split; [apply tryStat_run |].
    rewrite statIsFile_regular. apply regular_iff.
  - intros dir file u.
    destruct (resolve_verified p this dir file u) as (q & tr & -> & Hq).
    exists q, (logStats tr u). split; [reflexivity |].
    intros path Hpath. now apply regular_iff, Hq.
  - intros code.
    destruct (lookup_cases p this name w) as [tr [(e & -> & He) | (q & -> & _)]];
      [| discriminate].
    intros [= ->].
    destruct He as [[msg Hmsg] | (code' & root & Hcode & Hgone & Hname & Hin & Hroot)];
      [discriminate |].
    injection Hcode as ->. eauto.
  - intros path.
    destruct (lookup_cases p this name w) as [tr [(e & -> & _) | (q & -> & Hq)]];
      [discriminate |].
    intros [= ->]. now apply regular_iff, Hq.
  - intros roots Hlive Hroots. unfold View.lookup. rewrite Hroots.
    destruct p as [h failure]. cbn [cwdFailure] in Hlive. subst failure.
    destruct (lookupLoop_strings h this name roots None w) as (q & w' & Hrun).
    exists q. change (mkProcess h None) with (live h). now rewrite Hrun.
  - intros p' Hcwd Hreg. now apply lookupLoop_regular.
Qed.

Lemma probes_accept_regular_files_only_witness :
  View.lookup (deniedHost ["/views/index/index.html"])
              (demoView (Options.Many ["/"; "/views"])) "index.html" freshWorld
  = View.lookup (demoHost ["/views/index/index.html"])
                (demoView (Options.Many ["/"; "/views"])) "index.html" freshWorld
  /\ statSync (demoHost ["/views/index/index.html"]) "/views/index/index.html"
     = Stats RegularFile
  /\ exists q,
       fst (View.lookup (demoHost ["/views/index/index.html"])
              (demoView (Options.Many ["/"; "/views"])) "index.html" freshWorld)
       = Normal q.
Proof.
  pose proof (probes_accept_regular_files_only (live (demoHost ["/views/index/index.html"]))
                (demoView (Options.Many ["/"; "/views"])) "index.html" freshWorld)
    as (_ & _ & _ & Hfile & Hstrings & Hsame).
  split; [| split].
  - apply (Hsame (live (deniedHost ["/views/index/index.html"]))); [reflexivity |].
    intros path. unfold regular; simpl.
    destruct (String.eqb path "/views/index/index.html" || false); [reflexivity |].
    destruct (String.eqb path "/views"); reflexivity.
  - apply Hfile. reflexivity.
  - apply (Hstrings ["/"; "/views"]); reflexivity.
Defined.

(** C6 as stated fails: with the working directory gone, a relative root
    and a relative name, [path.resolve] calls [process.cwd()], which throws,
    and [lookup] lets the system error through, before any probe. *)
Lemma lookup_propagates_cwd_failure :
  View.lookup (mkProcess (demoHost ["/srv/app/views/index.html"]) (Some "ENOENT"))
              (demoView (Options.One "views")) "index.html" freshWorld
  = (Throw (SystemError "ENOENT"), freshWorld)
  /\ View.lookup (live (demoHost ["/srv/app/views/index.html"]))
                 (demoView (Options.One "views")) "index.html" freshWorld
     = (Normal (Some "/srv/app/views/index.html"),
        logStats ["/srv/app/views/index.html"] freshWorld).
Proof. split; reflexivity. Qed.

(** C7: When the extension is settled, the engine bound and no root has
    a match, the constructor returns a view whose path is absent, having
    probed both candidates of every root; [render] on that view calls the
    engine with the absent path, the options and the callback it was given,
    and completes as the engine does: the view checks nothing and throws
    nothing of its own. *)
Theorem no_match_is_left_to_the_engine (h : Host) name opts ext fileName roots engine w w1 :
  View.inferExtension name (Options.defaultEngine opts) = Normal (ext, fileName) ->
  View.bindEngine h (Options.engines opts) ext w = (Normal engine, w1) ->
  concatRoot (Options.root opts) = map Some roots ->
  (forall R, In R roots -> matchIn h ext R fileName = None) ->
  exists fn,
    engine = Some fn
    /\ let v := View.mk (Options.defaultEngine opts) ext name (Options.root opts)
                        (Some fn) None in
       let w' := logStats (flat_map (fun R => probesIn h ext R fileName) roots) w1 in
       View.constructor h name (Some opts) w = (Normal v, w')
       /\ forall options callback,
            View.render h v options callback w'
            = (match invoke h (mkCall fn None options callback) with
               | None => Normal tt
               | Some e => Throw e
               end,
               logCall (mkCall fn None options callback) w').
Proof.
  intros Hext Hbind Hroots Hmiss.
  destruct (bindEngine_Normal _ _ _ _ _ _ Hbind) as (registry & fn & _ & -> & _).
  exists fn. split; [reflexivity |]. cbv zeta. split; [| reflexivity].
  rewrite (constructor_stages _ _ _ _ _ _ Hext), Hbind. cbv zeta.
  unfold View.lookup. cbn [View.root]. rewrite Hroots.
  rewrite <- (app_nil_r (map Some roots)).
  rewrite lookupLoop_misses by exact Hmiss. reflexivity.
Qed.

Lemma no_match_is_left_to_the_engine_witness :
  exists fn,
    Some 7 = Some fn
    /\ View.constructor (demoHost []) "index" (Some (demoOptions (Options.One "/views")))
                        boundWorld
       = (Normal (View.mk (Some "html") ".html" "index" (Options.One "/views") (Some fn) None),
          logStats ["/views/index.html"; "/views/index/index.html"] boundWorld)
    /\ forall options callback,
         View.render (demoHost [])
                     (View.mk (Some "html") ".html" "index" (Options.One "/views")
                              (Some fn) None)
                     options callback
                     (logStats ["/views/index.html"; "/views/index/index.html"] boundWorld)
         = (Normal tt,
            logCall (mkCall fn None options callback)
                    (logStats ["/views/index.html"; "/views/index/index.html"] boundWorld)).
Proof.
  apply (no_match_is_left_to_the_engine (demoHost []) "index"
           (demoOptions (Options.One "/views")) ".html" "index.html" ["/views"]
           (Some 7) boundWorld boundWorld).
  - reflexivity.
  - reflexivity.
  - reflexivity.
  - intros R [<- | []]. reflexivity.
Defined.

(** C8: A name without extension and a default engine (a non-empty
    string: an empty one is falsy and counts as none): the extension is the
    default engine, with a dot put in front exactly when it does not open
    with one, so that it always opens with a dot.  The constructor then
    binds the engine of that extension and calls [lookup] on the name
    followed by the extension, with a view that holds that extension and
    the name as given; it fails only as one of these two steps fails, and
    whenever the engine is bound and the roots are strings it returns the
    view, with the extension derived, the name unchanged and the path that
    [lookup] found for the name followed by the extension. *)
Theorem extension_from_default_engine (h : Host) name opts d w :
  Path.extname name = "" ->
  Options.defaultEngine opts = Some d ->
  truthy d = true ->
  let ext := if firstIsNotDot d then "." +:+ d else d in
  View.inferExtension name (Some d) = Normal (ext, name +:+ ext)
  /\ (firstIsNotDot d = false -> exists s, d = String "." s)
  /\ ext = String "." (substr1 ext)
  /\ View.constructor h name (Some opts) w
     = match View.bindEngine h (Options.engines opts) ext w with
       | (Throw e, w1) => (Throw e, w1)
       | (Normal engine, w1) =>
           match View.lookup h (View.mk (Some d) ext name (Options.root opts) engine None)
                             (name +:+ ext) w1 with
           | (Throw e, w2) => (Throw e, w2)
           | (Normal path, w2) =>
               (Normal (View.mk (Some d) ext name (Options.root opts) engine path), w2)
           end
       end
  /\ (forall engine w1 roots,
         View.bindEngine h (Options.engines opts) ext w = (Normal engine, w1) ->
         concatRoot (Options.root opts) = map Some roots ->
         exists path w',
           View.constructor h name (Some opts) w
           = (Normal (View.mk (Some d) ext name (Options.root opts) engine path), w')
           /\ View.lookup h (View.mk (Some d) ext name (Options.root opts) engine None)
                          (name +:+ ext) w1
              = (Normal path, w'))
  /\ forall v w',
       View.constructor h name (Some opts) w = (Normal v, w') ->
       View.ext v = ext /\ View.name v = name
       /\ exists w1,
            View.lookup h (View.mk (Some d) ext name (Options.root opts) (View.engine v) None)
                        (name +:+ ext) w1
            = (Normal (View.path v), w').
Proof.
  intros Hext Hd Htruthy ext.
  pose proof (inferExtension_default name d Hext Htruthy) as Hinfer. fold ext in Hinfer.
  assert (Hstages :
            View.constructor h name (Some opts) w
            = match View.bindEngine h (Options.engines opts) ext w with
              | (Throw e, w1) => (Throw e, w1)
              | (Normal engine, w1) =>
                  match View.lookup h
                          (View.mk (Some d) ext name (Options.root opts) engine None)
                          (name +:+ ext) w1 with
                  | (Throw e, w2) => (Throw e, w2)
                  | (Normal path, w2) =>
                      (Normal (View.mk (Some d) ext name (Options.root opts) engine path),
                       w2)
                  end
              end).
  { rewrite (constructor_stages h name opts w ext (name +:+ ext))
      by (rewrite Hd; exact Hinfer).
    now rewrite Hd. }
  split; [exact Hinfer |]. split; [| split; [| split; [exact Hstages | split]]].
  - destruct d as [| c d]; [discriminate |]. cbn [firstIsNotDot].
    destruct (Path.is_dot c) eqn:Hc; [| discriminate].
    apply Ascii.eqb_eq in Hc as ->. eauto.
  - exact (inferExtension_dot _ _ _ _ Hinfer).
  - intros engine w1 roots Hbind Hroots. rewrite Hstages, Hbind.
    unfold View.lookup. cbn [View.root]. rewrite Hroots.
    destruct (lookupLoop_strings h
                (View.mk (Some d) ext name (Options.root opts) engine None)
                (name +:+ ext) roots None w1) as (path & w' & ->).
    now exists path, w'.
  - intros v w' Hrun.
    destruct (constructor_Normal _ _ _ _ _ _ Hrun)
      as (ext' & file' & w1 & Hinfer' & _ & Hlookup & Hv).
    rewrite Hd, Hinfer in Hinfer'. injection Hinfer' as <- <-.
    rewrite Hd in Hlookup, Hv.
    split; [rewrite Hv; reflexivity |]. split; [rewrite Hv; reflexivity |].
    now exists w1.
Qed.

Lemma extension_from_default_engine_witness :
  View.inferExtension "index" (Some "html") = Normal (".html", "index.html")
  /\ View.inferExtension "index" (Some ".html") = Normal (".html", "index.html")
  /\ View.constructor (demoHost ["/views/index.html"]) "index"
                      (Some (demoOptions (Options.One "/views"))) freshWorld
     = (Normal (View.mk (Some "html") ".html" "index" (Options.One "/views") (Some 7)
                        (Some "/views/index.html")),
        logStats ["/views/index.html"] (assign 0 ".html" 7 (logLoad "html" freshWorld)))
  /\ exists path w',
       View.constructor (demoHost []) "index"
                        (Some (Options.mk (Some ".html") (Some 0) (Options.Many ["/a"; "b"])))
                        boundWorld
       = (Normal (View.mk (Some ".html") ".html" "index" (Options.Many ["/a"; "b"])
                          (Some 7) path), w')
       /\ View.lookup (demoHost [])
                      (View.mk (Some ".html") ".html" "index" (Options.Many ["/a"; "b"])
                               (Some 7) None)
                      "index.html" boundWorld
          = (Normal path, w').
Proof.
  pose proof (extension_from_default_engine (demoHost ["/views/index.html"]) "index"
                (demoOptions (Options.One "/views")) "html" freshWorld
                eq_refl eq_refl eq_refl) as (Hinfer & _ & _ & Hstages & _).
  pose proof (extension_from_default_engine (demoHost []) "index"
                (Options.mk (Some ".html") (Some 0) (Options.Many ["/a"; "b"])) ".html"
                boundWorld eq_refl eq_refl eq_refl) as (Hinfer' & _ & _ & _ & Hreturns & _).
  split; [exact Hinfer |]. split; [exact Hinfer' |]. split.
  - exact (eq_trans Hstages eq_refl).
  - exact (Hreturns (Some 7) boundWorld ["/a"; "b"] eq_refl eq_refl).
Defined.

(** ** Options the constructor does not check *)

(** C9 (as amended): For a name with an extension: without [engines]
    (or without options at all) the constructor throws a [TypeError] at the
    registry check, before any call to the host; with the engine bound but
    no [root], and a name that is not an absolute path, it throws the
    [TypeError] of [path.resolve] inside [lookup].  Neither is the
    configuration error or the engine-load error. *)
Theorem unchecked_options_throw_TypeError (h : Host) name w :
  truthy (Path.extname name) = true ->
  (forall options,
      Options.engines (default Options.empty options) = None ->
      View.constructor h name options w
      = (Throw (TypeError (readOfUndefined (Path.extname name))), w))
  /\ (forall opts engine w1,
         View.bindEngine h (Options.engines opts) (Path.extname name) w
         = (Normal engine, w1) ->
         Options.root opts = Options.Undefined ->
         Path.isAbsolute name = false ->
         View.constructor h name (Some opts) w
         = (Throw (TypeError (Path.invalidArg "paths[0]")), w1))
  /\ (forall msg provider,
         TypeError msg <> ConfigurationError /\ TypeError msg <> EngineLoadError provider).
Proof.
  intros Hext. split; [| split].
  - intros options Hengines. unfold View.constructor. cbv zeta.
    rewrite (inferExtension_named _ _ Hext), Hengines. reflexivity.
  - intros opts engine w1 Hbind Hroot Hrelative.
    rewrite (constructor_stages _ _ _ _ _ _ (inferExtension_named _ _ Hext)), Hbind.
    cbv zeta. unfold View.lookup. cbn [View.root]. rewrite Hroot.
    cbn [concatRoot View.lookupLoop]. change (View.found None) with false; cbv iota.
    unfold bind, View.lookupIn, View.pathResolve, bind, Path.resolve.
    rewrite Hrelative. reflexivity.
  - intros msg provider. split; discriminate.
Qed.

Lemma unchecked_options_throw_TypeError_witness :
  View.constructor (demoHost []) "index.html" None freshWorld
  = (Throw (TypeError (readOfUndefined ".html")), freshWorld)
  /\ View.constructor (demoHost []) "index.html"
                      (Some (Options.mk None (Some 0) Options.Undefined)) freshWorld
     = (Throw (TypeError (Path.invalidArg "paths[0]")),
        assign 0 ".html" 7 (logLoad "html" freshWorld)).
Proof.
  pose proof (unchecked_options_throw_TypeError (demoHost []) "index.html" freshWorld eq_refl)
    as (Hengines & Hroot & _).
  split.
  - apply Hengines. reflexivity.
  - apply (Hroot (Options.mk None (Some 0) Options.Undefined) (Some 7)); reflexivity.
Defined.

(** C9 as stated fails: with an absolute name, [engines] present and
    [root] absent, the constructor returns a view, here with the file
    found; and with a relative name, when the module of the extension has
    no [__express], the failure is the engine-load error, before
    [lookup]. *)
Lemma absent_root_without_TypeError :
  View.constructor (demoHost ["/srv/views/a.html"]) "/srv/views/a.html"
                   (Some (Options.mk None (Some 0) Options.Undefined)) boundWorld
  = (Normal (View.mk None ".html" "/srv/views/a.html" Options.Undefined (Some 7)
                     (Some "/srv/views/a.html")),
     logStats ["/srv/views/a.html"] boundWorld)
  /\ ~ isTypeError (fst (View.constructor (demoHost ["/srv/views/a.html"])
                           "/srv/views/a.html"
                           (Some (Options.mk None (Some 0) Options.Undefined)) boundWorld))
  /\ View.constructor (demoHost []) "a.foo"
                      (Some (Options.mk None (Some 0) Options.Undefined)) freshWorld
     = (Throw (EngineLoadError "foo"), logLoad "foo" freshWorld).
Proof.
  split; [reflexivity |]. split; [| reflexivity].
  intros [msg Hmsg]. discriminate Hmsg.
Qed.

(** ** Absolute names *)

Lemma append_String x a b : String x a +:+ b = String x (a +:+ b).
Proof. reflexivity. Qed.

Lemma append_assoc a b c : (a +:+ b) +:+ c = a +:+ (b +:+ c).
Proof. induction a as [| x a IH]; [reflexivity |]. now rewrite !append_String, IH. Qed.

Lemma segments_cons s rest :
  forallb (fun c => negb (Path.is_slash c)) (list_ascii_of_string s) = true ->
  Path.segments (s +:+ "/" +:+ rest) = s :: Path.segments rest.
Proof.
  induction s as [| c s IH]; [reflexivity |].
  rewrite append_String. cbn [list_ascii_of_string forallb Path.segments].
  intros [Hc Hs]%andb_prop. apply negb_true_iff in Hc. rewrite Hc.
  now rewrite (IH Hs).
Qed.

Lemma plain_slashless seg :
  plain seg = true ->
  forallb (fun c => negb (Path.is_slash c)) (list_ascii_of_string seg) = true.
Proof. unfold plain. now intros [[[H _]%andb_prop _]%andb_prop _]%andb_prop. Qed.

Lemma normalizeStep_plain above acc seg :
  plain seg = true -> Path.normalizeStep above acc seg = seg :: acc.
Proof.
  unfold plain, Path.normalizeStep.
  intros [[[_ H1]%andb_prop H2]%andb_prop H3]%andb_prop.
  apply negb_true_iff in H1, H2, H3. now rewrite H1, H2, H3.
Qed.

Lemma normalize_plain above segs : forall acc,
  forallb plain segs = true ->
  fold_left (Path.normalizeStep above) (Path.segments (String.concat "/" segs +:+ "/")) acc
  = rev segs ++ acc.
Proof.
  induction segs as [| x rest IH]; intros acc Hplain; [reflexivity |].
  cbn [forallb] in Hplain. apply andb_prop in Hplain as [Hx Hrest].
  destruct rest as [| y rest].
  - cbn [String.concat]. change (x +:+ "/") with (x +:+ "/" +:+ "").
    rewrite segments_cons by now apply plain_slashless.
    cbn [Path.segments fold_left]. now rewrite (normalizeStep_plain above acc x Hx).
  - change (String.concat "/" (x :: y :: rest))
      with (x +:+ "/" +:+ String.concat "/" (y :: rest)).
    rewrite !append_assoc, segments_cons by now apply plain_slashless.
    cbn [fold_left]. rewrite (normalizeStep_plain above acc x Hx).
    rewrite (IH (x :: acc) Hrest).
    cbn [rev]. now rewrite <- !app_assoc.
Qed.

(** An absolute name made of plain segments is its own location. *)
Lemma resolve_plain cwd root segs :
  forallb plain segs = true ->
  Path.resolve cwd root ("/" +:+ String.concat "/" segs)
  = inr ("/" +:+ String.concat "/" segs).
Proof.
  intros Hplain. rewrite resolve_absolute by reflexivity.
  unfold Path.normalizeString.
  change (("/" +:+ String.concat "/" segs) +:+ "/")
    with (String "/" (String.concat "/" segs +:+ "/")).
  cbn [Path.segments]. change (Path.is_slash "/") with true. cbv iota.
  cbn [fold_left]. change (Path.normalizeStep false [] "") with (@nil string).
  rewrite (normalize_plain false segs [] Hplain).
  now rewrite app_nil_r, rev_involutive.
Qed.

Lemma lookupIn_absolute (h : Host) this name root w :
  Path.isAbsolute name = true ->
  View.lookupIn h this name root w = View.lookupIn h this name (Some "/") w.
Proof.
  intros Habs. unfold View.lookupIn, View.pathResolve.
  now rewrite (resolve_absolute _ root _ Habs), (resolve_absolute _ (Some "/") _ Habs).
Qed.

Lemma lookupLoop_cons (p : Process) this name root rest path w :
  View.lookupLoop p this name (root :: rest) path w
  = if View.found path then (Normal path, w)
    else match View.lookupIn p this name root w with
         | (Normal path', w') => View.lookupLoop p this name rest path' w'
         | (Throw e, w') => (Throw e, w')
         end.
Proof. cbn [View.lookupLoop]. now destruct (View.found path). Qed.

Lemma lookupLoop_absolute (h : Host) this name :
  Path.isAbsolute name = true ->
  forall roots root w,
    fst (View.lookupLoop h this name (root :: roots) None w)
    = Normal (matchIn h (View.ext this) "/" name).
Proof.
  intros Habs. induction roots as [| r rest IH]; intros root w;
    rewrite lookupLoop_cons; change (View.found None) with false; cbv iota;
    rewrite (lookupIn_absolute _ _ _ root _ Habs), lookupIn_run.
  - reflexivity.
  - destruct (matchIn h (View.ext this) "/" name) as [p |] eqn:Hmatch.
    + rewrite lookupLoop_found by (eapply matchIn_truthy; eassumption). reflexivity.
    + rewrite IH. congruence.
Qed.

(** C10 (as amended): For an absolute file name the location computed for a root is
    the normal form of the name, whatever the root (also an absent one), and
    the name itself when it is made of plain segments; every root therefore
    probes the same files with the same outcome, and two views with the same
    extension and at least one root each resolve to the same path, whichever
    roots they have and in whatever order. *)
Theorem absolute_name_ignores_roots (h : Host) this name :
  Path.isAbsolute name = true ->
  (forall root,
      Path.resolve (cwd h) root name
      = inr ("/" +:+ Path.normalizeString (name +:+ "/") false))
  /\ (forall segs,
         forallb plain segs = true -> name = "/" +:+ String.concat "/" segs ->
         forall root, Path.resolve (cwd h) root name = inr name)
  /\ (forall root root' w,
         View.lookupIn h this name root w = View.lookupIn h this name root' w)
  /\ (forall this' w w',
         View.ext this' = View.ext this ->
         concatRoot (View.root this) <> [] ->
         concatRoot (View.root this') <> [] ->
         fst (View.lookup h this name w) = fst (View.lookup h this' name w')).
Proof.
  intros Habs. split; [| split; [| split]].
  - intros root. now apply resolve_absolute.
  - intros segs Hplain -> root. now apply resolve_plain.
  - intros root root' w.
    now rewrite (lookupIn_absolute _ _ _ root _ Habs), (lookupIn_absolute _ _ _ root' _ Habs).
  - intros this' w w' Hext Hroots Hroots'. unfold View.lookup.
    destruct (concatRoot (View.root this)) as [| r rest]; [contradiction |].
    destruct (concatRoot (View.root this')) as [| r' rest']; [contradiction |].
    rewrite !lookupLoop_absolute by assumption. now rewrite Hext.
Qed.

Lemma absolute_name_ignores_roots_witness :
  Path.resolve "/srv/app" (Some "/views") "/srv/pages/x.html" = inr "/srv/pages/x.html"
  /\ fst (View.lookup (demoHost ["/srv/pages/x.html"])
            (demoView (Options.Many ["/a"; "/b"])) "/srv/pages/x.html" freshWorld)
     = fst (View.lookup (demoHost ["/srv/pages/x.html"])
              (demoView Options.Undefined) "/srv/pages/x.html" boundWorld).
Proof.
  pose proof (absolute_name_ignores_roots (demoHost ["/srv/pages/x.html"])
                (demoView (Options.Many ["/a"; "/b"])) "/srv/pages/x.html" eq_refl)
    as (_ & Hitself & _ & Hsame).
  split.
  - apply (Hitself ["srv"; "pages"; "x.html"]); reflexivity.
  - apply Hsame; [reflexivity | discriminate | discriminate].
Defined.

(** C10 as stated fails in two places.  The location of an absolute name
    that is not in normal form is its normal form, not the name: for
    [/views/../x.html] the file probed and found is [/x.html].  And the
    choice of roots matters when it is the choice of none: over the empty
    array nothing is probed and the path is absent, though the file is
    there. *)
Lemma absolute_name_normalized_or_unprobed :
  Path.resolve (cwd (demoHost ["/x.html"])) (Some "/views") "/views/../x.html"
  = inr "/x.html"
  /\ View.lookupIn (demoHost ["/x.html"]) (demoView (Options.One "/views"))
                   "/views/../x.html" (Some "/views") freshWorld
     = (Normal (Some "/x.html"), logStats ["/x.html"] freshWorld)
  /\ View.lookup (demoHost ["/x.html"]) (demoView (Options.Many [])) "/x.html" freshWorld
     = (Normal None, freshWorld)
  /\ View.lookup (demoHost ["/x.html"]) (demoView (Options.Many ["/views"])) "/x.html"
                 freshWorld
     = (Normal (Some "/x.html"), logStats ["/x.html"] freshWorld).
Proof. repeat split. Qed.

(** ** Beyond the claims: what [lookup] reads and writes *)

Lemma resolve_uniform (p : Process) this dir file :
  exists q tr,
    (forall w, View.resolve p this dir file w = (Normal q, logStats tr w))
    /\ answers (host p) tr q /\ length tr <= 2.
Proof.
  destruct (regular (host p) (exactPath dir file)) eqn:Hexact.
  - exists (Some (exactPath dir file)), [exactPath dir file].
    split; [intros w; now apply resolve_exact |]. split; [| simpl; lia].
    intros f [= <-]. split; [assumption |]. split; [apply join_truthy |].
    now exists [].
  - destruct (regular (host p) (indexPath (View.ext this) dir file)) eqn:Hindex.
    + exists (Some (indexPath (View.ext this) dir file)),
             [exactPath dir file; indexPath (View.ext this) dir file].
      split; [intros w; rewrite resolve_fallback by assumption; now rewrite Hindex |].
      split; [| simpl; lia].
      intros f [= <-]. split; [assumption |]. split; [apply join_truthy |].
      now exists [exactPath dir file].
    + exists None, [exactPath dir file; indexPath (View.ext this) dir file].
      split; [intros w; rewrite resolve_fallback by assumption; now rewrite Hindex |].
      split; [| simpl; lia]. intros f; discriminate.
Qed.

Lemma lookupIn_uniform (p : Process) this name root :
  (exists e, (forall w, View.lookupIn p this name root w = (Throw e, w))
             /\ lookupThrows p [root] name e)
  \/ (exists q tr,
         (forall w, View.lookupIn p this name root w = (Normal q, logStats tr w))
         /\ answers (host p) tr q /\ length tr <= 2).
Proof.
  unfold View.lookupIn, View.pathResolve, bind.
  destruct (Path.resolve (processCwd p) root name) as [[msg | code] | loc] eqn:Hloc.
  - left. exists (TypeError msg). split; [reflexivity |]. left; eauto.
  - left. exists (SystemError code). split; [reflexivity |]. right.
    destruct (resolve_CwdFailure _ _ _ _ Hloc) as (Hgone & Hname & r & -> & Hr).
    exists code, r. split; [reflexivity |]. split; [now apply processCwd_Gone |].
    split; [exact Hname |]. split; [now left | exact Hr].
  - right. unfold ret at 1. apply resolve_uniform.
Qed.

Lemma answers_after (h : Host) tr tr' q : answers h tr' q -> answers h (tr ++ tr') q.
Proof.
  intros Hq f Hf. destruct (Hq f Hf) as (Hreg & Htruthy & before & ->).
  split; [assumption |]. split; [assumption |].
  exists (tr ++ before). now rewrite app_assoc.
Qed.

(** The loop: its completion and its probes are the same in every world,
    and the world it leaves is the one it was given plus the probes. *)
Lemma lookupLoop_uniform (p : Process) this name roots : forall path,
  exists r tr,
    (forall w, View.lookupLoop p this name roots path w = (r, logStats tr w))
    /\ length tr <= 2 * length roots
    /\ (path = None -> forall q, r = Normal q -> answers (host p) tr q)
    /\ (forall e, r = Throw e -> lookupThrows p roots name e).
Proof.
  induction roots as [| root rest IH]; intros path.
  - exists (Normal path), []. split; [intros w; now rewrite logStats_nil |].
    split; [simpl; lia |]. split; [| discriminate].
    intros -> q [= <-] f; discriminate.
  - destruct (View.found path) eqn:Hfound.
    + exists (Normal path), [].
      split; [intros w; rewrite lookupLoop_cons, Hfound; now rewrite logStats_nil |].
      split; [simpl; lia |]. split; [| discriminate].
      intros ->; discriminate.
    + destruct (lookupIn_uniform p this name root)
        as [(e & Hin & He) | (q & tr & Hin & Hq & Hlen)].
      * exists (Throw e), [].
        split; [intros w; rewrite lookupLoop_cons, Hfound, Hin; now rewrite logStats_nil |].
        split; [simpl; lia |]. split; [discriminate |].
        intros e' [= <-]. apply (lookupThrows_more p [root]); [| exact He].
        intros r [<- | []]. now left.
      * destruct q as [f |].
        -- exists (Normal (Some f)), tr.
           split.
           { intros w. rewrite lookupLoop_cons, Hfound, Hin.
             apply lookupLoop_found. exact (proj1 (proj2 (Hq f eq_refl))). }
           split; [simpl; lia |]. split; [| discriminate].
           now intros _ q [= <-].
        -- destruct (IH None) as (r & tr' & Hrest & Hlen' & Hanswers & Hthrow).
           exists r, (tr ++ tr').
           split; [intros w; rewrite lookupLoop_cons, Hfound, Hin, Hrest;
                   now rewrite logStats_app |].
           split; [rewrite length_app; simpl; lia |]. split.
           ++ intros _ q' Hq'. apply answers_after. now apply Hanswers.
           ++ intros e He. apply (lookupThrows_more p rest); [| now apply Hthrow].
              intros r' Hr'. now right.
Qed.

Lemma lookup_uniform (p : Process) this name :
  exists r tr,
    (forall w, View.lookup p this name w = (r, logStats tr w))
    /\ length tr <= 2 * length (concatRoot (View.root this))
    /\ (forall q, r = Normal q -> answers (host p) tr q)
    /\ (forall e, r = Throw e -> lookupThrows p (concatRoot (View.root this)) name e).
Proof.
  destruct (lookupLoop_uniform p this name (concatRoot (View.root this)) None)
    as (r & tr & Hrun & Hlen & Hanswers & Hthrow).
  exists r, tr. auto.
Qed.



(** ** Beyond the claims: the view a construction returns *)

Lemma constructor_default (h : Host) name options w :
  View.constructor h name options w
  = View.constructor h name (Some (default Options.empty options)) w.
Proof. destruct options; reflexivity. Qed.

Lemma constructor_Normal_any (h : Host) name options w v w' :
  View.constructor h name options w = (Normal v, w') ->
  let opts := default Options.empty options in
  exists ext fileName w1,
    View.inferExtension name (Options.defaultEngine opts) = Normal (ext, fileName)
    /\ View.bindEngine h (Options.engines opts) ext w = (Normal (View.engine v), w1)
    /\ View.lookup h
         (View.mk (Options.defaultEngine opts) ext name (Options.root opts)
                  (View.engine v) None) fileName w1
       = (Normal (View.path v), w')
    /\ v = View.mk (Options.defaultEngine opts) ext name (Options.root opts)
                   (View.engine v) (View.path v).
Proof. rewrite constructor_default. apply constructor_Normal. Qed.

(** X2: The path of a constructed view, when there is one, is a regular
    file according to the [statSync] made during the construction, and it is
    the last path the construction probed. *)
Theorem constructed_path_is_regular_file (h : Host) name options w v w' p :
  View.constructor h name options w = (Normal v, w') ->
  View.path v = Some p ->
  statSync h p = Stats RegularFile /\ exists before, stats w' = before ++ [p].
Proof.
  intros Hrun Hpath.
  destruct (constructor_Normal_any _ _ _ _ _ _ Hrun)
    as (ext & fileName & w1 & _ & _ & Hlookup & _).
  destruct (lookup_uniform h
              (View.mk (Options.defaultEngine (default Options.empty options)) ext name
                       (Options.root (default Options.empty options)) (View.engine v) None)
              fileName) as (r & tr & Hrun' & _ & Hanswers & _).
  rewrite Hrun', Hpath in Hlookup. injection Hlookup as -> <-.
  destruct (Hanswers (Some p) eq_refl p eq_refl) as (Hreg & _ & before & ->).
  split; [now apply regular_iff |].
  exists (stats w1 ++ before). cbn [logStats stats]. now rewrite app_assoc.
Qed.

Lemma constructed_path_is_regular_file_witness :
  statSync (demoHost ["/views/index/index.html"]) "/views/index/index.html"
  = Stats RegularFile
  /\ exists before,
       stats (logStats ["/views/index.html"; "/views/index/index.html"]
                (assign 0 ".html" 7 (logLoad "html" freshWorld)))
       = before ++ ["/views/index/index.html"].
Proof.
  apply (constructed_path_is_regular_file (demoHost ["/views/index/index.html"]) "index"
           (Some (demoOptions (Options.One "/views"))) freshWorld
           (View.mk (Some "html") ".html" "index" (Options.One "/views") (Some 7)
                    (Some "/views/index/index.html"))
           (logStats ["/views/index.html"; "/views/index/index.html"]
              (assign 0 ".html" 7 (logLoad "html" freshWorld)))
           "/views/index/index.html");
    reflexivity.
Defined.

(** X3: The extension of a constructed view is never empty: it opens
    with a dot, whether it came from the name or from the default engine;
    it is the extension of the name whenever the name has one; and the view
    keeps the name and the root it was given. *)
Theorem constructed_extension_has_dot (h : Host) name options w v w' :
  View.constructor h name options w = (Normal v, w') ->
  View.ext v = String "." (substr1 (View.ext v))
  /\ (truthy (Path.extname name) = true -> View.ext v = Path.extname name)
  /\ View.name v = name
  /\ View.root v = Options.root (default Options.empty options).
Proof.
  intros Hrun.
  destruct (constructor_Normal_any _ _ _ _ _ _ Hrun)
    as (ext & fileName & w1 & Hinfer & _ & _ & Hv).
  rewrite Hv. cbn [View.ext View.name View.root].
  split; [exact (inferExtension_dot _ _ _ _ Hinfer) |]. split; [| split; reflexivity].
  intros Hnamed. rewrite (inferExtension_named _ _ Hnamed) in Hinfer.
  now injection Hinfer as <- _.
Qed.

Lemma constructed_extension_has_dot_witness :
  ".pug" = String "." (substr1 ".pug").
Proof.
  refine (proj1 (constructed_extension_has_dot
           (mkHost "/srv/app" (fun _ => StatFails "ENOENT")
                   (fun _ => Exports (JsFunction 3)) (fun _ => None))
           "users/list.pug"
           (Some (Options.mk (Some "html") (Some 0) (Options.Many ["/views"; "shared"])))
           freshWorld
           (View.mk (Some "html") ".pug" "users/list.pug" (Options.Many ["/views"; "shared"])
                    (Some 3) None)
           (logStats ["/views/users/list.pug"; "/views/users/list/index.pug";
                      "/srv/app/shared/users/list.pug";
                      "/srv/app/shared/users/list/index.pug"]
              (assign 0 ".pug" 3 (logLoad "pug" freshWorld))) _)).
  reflexivity.
Defined.

(** ** Beyond the claims: what a construction leaves behind *)

Lemma asFunction_Some v fn : asFunction v = Some fn -> v = JsFunction fn.
Proof. destruct v; simpl; congruence. Qed.

Lemma assign_lookup_other obj key fn w obj' key' :
  (obj', key') <> (obj, key) ->
  (heap (assign obj key fn w) !!! obj') !! key' = (heap w !!! obj') !! key'.
Proof.
  intros Hother. unfold assign; cbn [heap].
  destruct (decide (obj = obj')) as [<- | Hobj].
  - rewrite lookup_total_insert_eq. apply lookup_insert_ne. congruence.
  - now rewrite lookup_total_insert_ne.
Qed.

Lemma bindEngine_cases (h : Host) engines ext w :
  (engines = None
   /\ View.bindEngine h engines ext w = (Throw (TypeError (readOfUndefined ext)), w))
  \/ exists registry,
       engines = Some registry
       /\ ((exists fn, (heap w !!! registry) !! ext = Some fn
                       /\ View.bindEngine h engines ext w = (Normal (Some fn), w))
           \/ ((heap w !!! registry) !! ext = None
               /\ ((exists e, View.bindEngine h engines ext w
                              = (Throw e, logLoad (substr1 ext) w))
                   \/ (exists fn,
                          require h (substr1 ext) = Exports (JsFunction fn)
                          /\ View.bindEngine h engines ext w
                             = (Normal (Some fn),
                                assign registry ext fn (logLoad (substr1 ext) w)))))).
Proof.
  destruct engines as [registry |]; [right; exists registry; split; [reflexivity |] | now left].
  destruct ((heap w !!! registry) !! ext) as [fn |] eqn:Hentry.
  - left. exists fn. split; [reflexivity |]. now apply bindEngine_bound.
  - right. split; [reflexivity |]. rewrite bindEngine_unbound by assumption.
    destruct (require h (substr1 ext)) as [v | e]; [| left; eauto].
    destruct (asFunction v) as [fn |] eqn:Hfn; [| left; eauto].
    right. exists fn. apply asFunction_Some in Hfn as ->. split; reflexivity.
Qed.

(** The world after a construction, whatever its outcome: the world before,
    with the probes of [lookup], and possibly one [require] and one new
    registry entry. *)
Lemma constructor_world (h : Host) name options w r w' :
  View.constructor h name options w = (r, w') ->
  exists tr,
    length tr <= 2 * length (concatRoot (Options.root (default Options.empty options)))
    /\ (w' = logStats tr w
        \/ exists registry ext fileName,
             Options.engines (default Options.empty options) = Some registry
             /\ View.inferExtension name
                  (Options.defaultEngine (default Options.empty options))
                = Normal (ext, fileName)
             /\ (heap w !!! registry) !! ext = None
             /\ (w' = logStats tr (logLoad (substr1 ext) w)
                 \/ exists fn,
                      require h (substr1 ext) = Exports (JsFunction fn)
                      /\ w' = logStats tr (assign registry ext fn (logLoad (substr1 ext) w)))).
Proof.
  rewrite constructor_default.
  set (opts := default Options.empty options).
  assert (Hnil : forall u, exists tr : list string,
             length tr <= 2 * length (concatRoot (Options.root opts))
             /\ u = logStats tr u).
  { intros u. exists []. split; [simpl; lia | now rewrite logStats_nil]. }
  destruct (View.inferExtension name (Options.defaultEngine opts))
    as [[ext fileName] | e] eqn:Hinfer.
  - rewrite (constructor_stages _ _ _ _ _ _ Hinfer).
    assert (Hlookup : forall engine u,
               exists r' tr,
                 View.lookup h (View.mk (Options.defaultEngine opts) ext name
                                        (Options.root opts) engine None) fileName u
                 = (r', logStats tr u)
                 /\ length tr <= 2 * length (concatRoot (Options.root opts))).
    { intros engine u.
      destruct (lookup_uniform h
                  (View.mk (Options.defaultEngine opts) ext name (Options.root opts)
                           engine None) fileName) as (r' & tr & Hrun & Hlen & _).
      exists r', tr. split; [apply Hrun | exact Hlen]. }
    destruct (bindEngine_cases h (Options.engines opts) ext w)
      as [[Hnone ->] | (registry & Hreg & [(fn & Hentry & ->) | [Hentry [[e ->] | (fn & Hreq & ->)]]])].
    + intros [= _ <-]. destruct (Hnil w) as (tr & Hlen & Hw). exists tr. auto.
    + cbv zeta. destruct (Hlookup (Some fn) w) as (r' & tr & -> & Hlen).
      intros Hrun. exists tr. split; [exact Hlen |]. left.
      destruct r'; now injection Hrun as _ <-.
    + intros [= _ <-]. exists []. split; [simpl; lia |]. right.
      exists registry, ext, fileName. rewrite logStats_nil. auto 10.
    + cbv zeta.
      destruct (Hlookup (Some fn) (assign registry ext fn (logLoad (substr1 ext) w)))
        as (r' & tr & -> & Hlen).
      intros Hrun. exists tr. split; [exact Hlen |]. right.
      exists registry, ext, fileName. do 3 (split; [easy |]). right.
      exists fn. split; [exact Hreq |]. destruct r'; now injection Hrun as _ <-.
  - unfold View.constructor. cbv zeta.
    change (default Options.empty (Some opts)) with opts. rewrite Hinfer.
    intros [= _ <-]. destruct (Hnil w) as (tr & Hlen & Hw). exists tr. auto.
Qed.

(** X5: A construction never replaces or removes an entry of any
    registry, whatever its outcome; the only entry it can add is the one of
    its own extension in the registry it was given, and the function stored
    is the [__express] of the module named by the extension without its
    dot. *)
Theorem construction_keeps_registry_entries (h : Host) name options w r w' :
  View.constructor h name options w = (r, w') ->
  (forall obj key fn,
      (heap w !!! obj) !! key = Some fn -> (heap w' !!! obj) !! key = Some fn)
  /\ (forall obj key fn,
         (heap w !!! obj) !! key = None -> (heap w' !!! obj) !! key = Some fn ->
         Options.engines (default Options.empty options) = Some obj
         /\ (exists fileName,
                View.inferExtension name
                  (Options.defaultEngine (default Options.empty options))
                = Normal (key, fileName))
         /\ require h (substr1 key) = Exports (JsFunction fn)).
Proof.
  intros Hrun.
  destruct (constructor_world _ _ _ _ _ _ Hrun)
    as (tr & _ & [-> | (registry & ext & fileName & Hreg & Hinfer & Hentry
                        & [-> | (fn0 & Hreq & ->)])]);
    cbn [logStats logLoad heap].
  - split; [auto |]. intros obj key fn Hnone Hsome. congruence.
  - split; [auto |]. intros obj key fn Hnone Hsome. congruence.
  - change (heap (logStats tr (assign registry ext fn0 (logLoad (substr1 ext) w))))
      with (heap (assign registry ext fn0 w)).
    split.
    + intros obj key fn Hsome.
      rewrite assign_lookup_other; [exact Hsome | intros [= -> ->]; congruence].
    + intros obj key fn Hnone Hsome.
      destruct (decide ((obj, key) = (registry, ext))) as [[= -> ->] | Hother].
      * rewrite assign_lookup in Hsome. injection Hsome as <-. eauto.
      * rewrite assign_lookup_other in Hsome by assumption.
        change (heap (logLoad (substr1 ext) w)) with (heap w) in Hsome. congruence.
Qed.

Lemma construction_keeps_registry_entries_witness :
  (forall obj key fn,
      (heap (assign 0 ".pug" 3 freshWorld) !!! obj) !! key = Some fn ->
      (heap (assign 0 ".html" 7 (logLoad "html" (assign 0 ".pug" 3 freshWorld))) !!! obj)
        !! key = Some fn)
  /\ (forall obj key fn,
         (heap (assign 0 ".pug" 3 freshWorld) !!! obj) !! key = None ->
         (heap (assign 0 ".html" 7 (logLoad "html" (assign 0 ".pug" 3 freshWorld))) !!! obj)
           !! key = Some fn ->
         Some 0 = Some obj
         /\ (exists fileName,
                View.inferExtension "index.html" None = Normal (key, fileName))
         /\ require (demoHost []) (substr1 key) = Exports (JsFunction fn)).
Proof.
  apply (construction_keeps_registry_entries (demoHost []) "index.html"
           (Some (Options.mk None (Some 0) Options.Undefined))
           (assign 0 ".pug" 3 freshWorld)
           (Throw (TypeError (Path.invalidArg "paths[0]")))
           (assign 0 ".html" 7 (logLoad "html" (assign 0 ".pug" 3 freshWorld)))).
  reflexivity.
Defined.

(** X6: The cost of a construction, whatever its outcome: at most one
    [require], at most two [statSync] for each element of the root list,
    and no call to any engine. *)
Theorem construction_cost (h : Host) name options w r w' :
  View.constructor h name options w = (r, w') ->
  calls w' = calls w
  /\ (exists required, loads w' = loads w ++ required /\ length required <= 1)
  /\ (exists probed,
         stats w' = stats w ++ probed
         /\ length probed
            <= 2 * length (concatRoot (Options.root (default Options.empty options)))).
Proof.
  intros Hrun.
  destruct (constructor_world _ _ _ _ _ _ Hrun)
    as (tr & Hlen & [-> | (registry & ext & fileName & _ & _ & _
                           & [-> | (fn0 & _ & ->)])]);
    cbn [logStats logLoad assign calls loads stats].
  - split; [reflexivity |]. split; [exists []; rewrite app_nil_r; simpl; auto | eauto].
  - split; [reflexivity |]. split; [exists [substr1 ext]; simpl; auto | eauto].
  - split; [reflexivity |]. split; [exists [substr1 ext]; simpl; auto | eauto].
Qed.

Lemma construction_cost_witness :
  calls (logStats ["/a/index.html"; "/a/index/index.html"; "/views/index.html"]
           (assign 0 ".html" 7 (logLoad "html" freshWorld)))
  = calls freshWorld.
Proof.
  refine (proj1 (construction_cost (demoHost ["/views/index.html"]) "index"
                   (Some (demoOptions (Options.Many ["/a"; "/views"; "/c"]))) freshWorld
                   (Normal (View.mk (Some "html") ".html" "index"
                                    (Options.Many ["/a"; "/views"; "/c"]) (Some 7)
                                    (Some "/views/index.html")))
                   (logStats ["/a/index.html"; "/a/index/index.html"; "/views/index.html"]
                      (assign 0 ".html" 7 (logLoad "html" freshWorld))) _)).
  reflexivity.
Defined.

(** ** Beyond the claims: constructing again, and with other options *)

(** X7: Constructing a view again gives the same view.  Once a
    construction has returned a view, the same construction in any world
    whose registry still holds the view's engine under its extension (the
    world the first one left, to begin with) returns that very view,
    requires nothing, writes nothing, and probes the same paths. *)
Theorem reconstruction_is_stable (h : Host) name options w v w1 :
  View.constructor h name options w = (Normal v, w1) ->
  exists registry tr,
    Options.engines (default Options.empty options) = Some registry
    /\ (heap w1 !!! registry) !! View.ext v = View.engine v
    /\ forall u,
         (heap u !!! registry) !! View.ext v = View.engine v ->
         View.constructor h name options u = (Normal v, logStats tr u).
Proof.
  intros Hrun.
  destruct (constructor_Normal_any _ _ _ _ _ _ Hrun)
    as (ext & fileName & u1 & Hinfer & Hbind & Hlookup & Hv).
  destruct (bindEngine_Normal _ _ _ _ _ _ Hbind)
    as (registry & fn & Hreg & Hfn & Hentry & _).
  destruct (lookup_uniform h
              (View.mk (Options.defaultEngine (default Options.empty options)) ext name
                       (Options.root (default Options.empty options)) (View.engine v) None)
              fileName) as (r & tr & Hrun' & _).
  rewrite Hrun' in Hlookup. injection Hlookup as -> <-.
  assert (Hext : View.ext v = ext) by (rewrite Hv; reflexivity).
  exists registry, tr. split; [exact Hreg |]. rewrite Hext, Hfn.
  split; [exact Hentry |].
  intros u Hu.
  rewrite constructor_default, (constructor_stages _ _ _ _ _ _ Hinfer), Hreg.
  rewrite (bindEngine_bound _ _ _ _ _ Hu). cbv zeta.
  rewrite <- Hfn, Hrun'. now rewrite <- Hv.
Qed.

Lemma reconstruction_is_stable_witness :
  exists registry tr,
    Some 0 = Some registry
    /\ (heap (logStats ["/views/index.html"] (assign 0 ".html" 7 (logLoad "html" freshWorld)))
          !!! registry) !! ".html" = Some 7
    /\ forall u,
         (heap u !!! registry) !! ".html" = Some 7 ->
         View.constructor (demoHost ["/views/index.html"]) "index"
                          (Some (demoOptions (Options.One "/views"))) u
         = (Normal (View.mk (Some "html") ".html" "index" (Options.One "/views") (Some 7)
                            (Some "/views/index.html")),
            logStats tr u).
Proof.
  apply (reconstruction_is_stable (demoHost ["/views/index.html"]) "index"
           (Some (demoOptions (Options.One "/views"))) freshWorld
           (View.mk (Some "html") ".html" "index" (Options.One "/views") (Some 7)
                    (Some "/views/index.html"))
           (logStats ["/views/index.html"] (assign 0 ".html" 7 (logLoad "html" freshWorld)))).
  reflexivity.
Defined.

Lemma lookupLoop_this (h : Host) this this' name roots :
  View.ext this' = View.ext this ->
  forall path w,
    View.lookupLoop h this' name roots path w = View.lookupLoop h this name roots path w.
Proof.
  intros Hext. induction roots as [| root rest IH]; intros path w; [reflexivity |].
  rewrite !lookupLoop_cons. destruct (View.found path); [reflexivity |].
  unfold View.lookupIn, View.pathResolve, bind.
  destruct (Path.resolve (processCwd h) root name) as [[msg | code] | loc];
    [reflexivity | reflexivity |].
  unfold ret. rewrite !resolve_run, Hext. cbn [host live].
  destruct (regular h _); [apply IH |]. destruct (regular h _); apply IH.
Qed.

(** Two option sets that settle on the same extension and file name, with
    the same registry and root, construct the same view but for the default
    engine it records. *)
Lemma constructor_same_extension (h : Host) name opts opts' w ext fileName :
  View.inferExtension name (Options.defaultEngine opts) = Normal (ext, fileName) ->
  View.inferExtension name (Options.defaultEngine opts') = Normal (ext, fileName) ->
  Options.engines opts' = Options.engines opts ->
  Options.root opts' = Options.root opts ->
  View.constructor h name (Some opts') w
  = match View.constructor h name (Some opts) w with
    | (Normal v, w') =>
        (Normal (View.mk (Options.defaultEngine opts') (View.ext v) (View.name v)
                         (View.root v) (View.engine v) (View.path v)), w')
    | (Throw e, w') => (Throw e, w')
    end.
Proof.
  intros Hinfer Hinfer' Hengines Hroot.
  rewrite (constructor_stages _ _ _ _ _ _ Hinfer), (constructor_stages _ _ _ _ _ _ Hinfer').
  rewrite Hengines, Hroot.
  destruct (View.bindEngine h (Options.engines opts) ext w) as [[engine | e] w1];
    [| reflexivity].
  cbv zeta. unfold View.lookup. cbn [View.root].
  rewrite (lookupLoop_this h
             (View.mk (Options.defaultEngine opts) ext name (Options.root opts) engine None)
             (View.mk (Options.defaultEngine opts') ext name (Options.root opts) engine None))
    by reflexivity.
  destruct (View.lookupLoop h _ fileName _ None w1) as [[path | e] w2]; reflexivity.
Qed.

(** X8: An extension in the name decides alone: when the name has an
    extension, the default engine plays no part.  With any other default
    engine, or none, the construction completes the same way, in the same
    world, and the view differs only in the default engine it records. *)
Theorem named_extension_ignores_default_engine (h : Host) name opts defaultEngine' w :
  truthy (Path.extname name) = true ->
  View.constructor h name
    (Some (Options.mk defaultEngine' (Options.engines opts) (Options.root opts))) w
  = match View.constructor h name (Some opts) w with
    | (Normal v, w') =>
        (Normal (View.mk defaultEngine' (View.ext v) (View.name v) (View.root v)
                         (View.engine v) (View.path v)), w')
    | (Throw e, w') => (Throw e, w')
    end.
Proof.
  intros Hnamed.
  apply (constructor_same_extension h name opts
           (Options.mk defaultEngine' (Options.engines opts) (Options.root opts)) w
           (Path.extname name) name);
    try reflexivity; now apply inferExtension_named.
Qed.

Lemma named_extension_ignores_default_engine_witness :
  View.constructor (demoHost ["/views/index.html"]) "index.html"
    (Some (Options.mk (Some "pug") (Some 0) (Options.One "/views"))) freshWorld
  = (Normal (View.mk (Some "pug") ".html" "index.html" (Options.One "/views") (Some 7)
                     (Some "/views/index.html")),
     logStats ["/views/index.html"] (assign 0 ".html" 7 (logLoad "html" freshWorld))).
Proof.
  apply (named_extension_ignores_default_engine (demoHost ["/views/index.html"])
           "index.html" (Options.mk None (Some 0) (Options.One "/views")) (Some "pug")
           freshWorld).
  reflexivity.
Defined.

(** X9: The dot of the default engine is optional: for a name without
    extension, a default engine [d] that does not open with a dot and the
    same with a dot in front lead to the same extension and the same file
    name, hence to the same completion in the same world, the view
    differing only in the default engine it records. *)
Theorem default_engine_dot_is_optional (h : Host) name d engines root w :
  Path.extname name = "" ->
  truthy d = true ->
  firstIsNotDot d = true ->
  View.inferExtension name (Some ("." +:+ d)) = View.inferExtension name (Some d)
  /\ View.constructor h name (Some (Options.mk (Some ("." +:+ d)) engines root)) w
     = match View.constructor h name (Some (Options.mk (Some d) engines root)) w with
       | (Normal v, w') =>
           (Normal (View.mk (Some ("." +:+ d)) (View.ext v) (View.name v) (View.root v)
                            (View.engine v) (View.path v)), w')
       | (Throw e, w') => (Throw e, w')
       end.
Proof.
  intros Hext Hd Hfirst.
  assert (Hplain : View.inferExtension name (Some d)
                   = Normal ("." +:+ d, name +:+ "." +:+ d)).
  { rewrite (inferExtension_default _ _ Hext Hd). now rewrite Hfirst. }
  assert (Hdotted : View.inferExtension name (Some ("." +:+ d))
                    = Normal ("." +:+ d, name +:+ "." +:+ d)).
  { now rewrite (inferExtension_default name ("." +:+ d) Hext eq_refl). }
  split; [congruence |].
  now apply (constructor_same_extension h name (Options.mk (Some d) engines root)
               (Options.mk (Some ("." +:+ d)) engines root) w
               ("." +:+ d) (name +:+ "." +:+ d)).
Qed.

Lemma default_engine_dot_is_optional_witness :
  View.inferExtension "index" (Some ".html") = View.inferExtension "index" (Some "html").
Proof.
  refine (proj1 (default_engine_dot_is_optional (demoHost []) "index" "html" (Some 0)
                   (Options.One "/views") freshWorld _ _ _));
    reflexivity.
Defined.

(** X10: A failed load is not remembered.  When the registry lacks the
    extension and the module cannot be required, or its [__express] is not
    a function, the construction throws after that one [require], leaves
    every registry as it was, and the same construction afterwards requires
    the module again and throws the same. *)
Theorem failed_load_is_not_cached (h : Host) name opts registry ext fileName w :
  View.inferExtension name (Options.defaultEngine opts) = Normal (ext, fileName) ->
  Options.engines opts = Some registry ->
  (heap w !!! registry) !! ext = None ->
  (forall fn, require h (substr1 ext) <> Exports (JsFunction fn)) ->
  exists e,
    View.constructor h name (Some opts) w = (Throw e, logLoad (substr1 ext) w)
    /\ heap (logLoad (substr1 ext) w) = heap w
    /\ View.constructor h name (Some opts) (logLoad (substr1 ext) w)
       = (Throw e, logLoad (substr1 ext) (logLoad (substr1 ext) w)).
Proof.
  intros Hinfer Hreg Hentry Hfails.
  assert (Hbind : forall u, heap u = heap w ->
            exists e, View.bindEngine h (Some registry) ext u
                      = (Throw e, logLoad (substr1 ext) u)
                      /\ e = match require h (substr1 ext) with
                             | RequireFails e' => e'
                             | Exports _ => EngineLoadError (substr1 ext)
                             end).
  { intros u Hu. rewrite bindEngine_unbound by (rewrite Hu; exact Hentry).
    destruct (require h (substr1 ext)) as [v | e'] eqn:Hreq; [| eauto].
    destruct (asFunction v) as [fn |] eqn:Hfn; [| eauto].
    apply asFunction_Some in Hfn as ->. now destruct (Hfails fn). }
  destruct (Hbind w eq_refl) as (e & Hfirst & He).
  destruct (Hbind (logLoad (substr1 ext) w) eq_refl) as (e' & Hsecond & He').
  exists e. rewrite !(constructor_stages _ _ _ _ _ _ Hinfer), Hreg, Hfirst, Hsecond.
  split; [reflexivity |]. split; [reflexivity |]. congruence.
Qed.

Lemma failed_load_is_not_cached_witness :
  exists e,
    View.constructor (demoHost []) "a.foo" (Some (Options.mk None (Some 0) (Options.One "/views")))
                     freshWorld
    = (Throw e, logLoad "foo" freshWorld)
    /\ heap (logLoad "foo" freshWorld) = heap freshWorld
    /\ View.constructor (demoHost []) "a.foo"
                        (Some (Options.mk None (Some 0) (Options.One "/views")))
                        (logLoad "foo" freshWorld)
       = (Throw e, logLoad "foo" (logLoad "foo" freshWorld)).
Proof.
  apply (failed_load_is_not_cached (demoHost []) "a.foo"
           (Options.mk None (Some 0) (Options.One "/views")) 0 ".foo" "a.foo" freshWorld);
    try reflexivity.
  intros fn. discriminate.
Defined.

(** ** Beyond the claims: reading the answer of [lookup] *)

Lemma lookupLoop_first_match (h : Host) this name roots : forall w,
  (exists pre Ri post p,
      roots = pre ++ Ri :: post
      /\ (forall Rj, In Rj pre -> matchIn h (View.ext this) Rj name = None)
      /\ matchIn h (View.ext this) Ri name = Some p
      /\ fst (View.lookupLoop h this name (map Some roots) None w) = Normal (Some p))
  \/ ((forall R, In R roots -> matchIn h (View.ext this) R name = None)
      /\ fst (View.lookupLoop h this name (map Some roots) None w) = Normal None).
Proof.
  induction roots as [| R rest IH]; intros w.
  - right. split; [intros R [] | reflexivity].
  - cbn [map]. rewrite lookupLoop_cons. change (View.found None) with false; cbv iota.
    rewrite lookupIn_run.
    destruct (matchIn h (View.ext this) R name) as [p |] eqn:Hmatch.
    + left. exists [], R, rest, p. split; [reflexivity |]. split; [intros Rj [] |].
      split; [exact Hmatch |].
      rewrite lookupLoop_found by (eapply matchIn_truthy; eassumption). reflexivity.
    + destruct (IH (logStats (probesIn h (View.ext this) R name) w))
        as [(pre & Ri & post & p & -> & Hmiss & Hhit & Hrun) | [Hmiss Hrun]].
      * left. exists (R :: pre), Ri, post, p. split; [reflexivity |].
        split; [| split; assumption].
        intros Rj [<- | HRj]; [exact Hmatch | now apply Hmiss].
      * right. split; [| exact Hrun].
        intros R' [<- | HR']; [exact Hmatch | now apply Hmiss].
Qed.

(** X11: The answer of [lookup] over roots that are strings can be read
    both ways.  The path is absent exactly when no root has a match, neither
    the file nor its index file being a regular file under any of them; and
    the path is [p] exactly when [p] is the match of some root before which
    no root has any. *)
Theorem lookup_answer_is_the_first_match (h : Host) this name roots w :
  concatRoot (View.root this) = map Some roots ->
  (fst (View.lookup h this name w) = Normal None
   <-> forall R, In R roots ->
         regular h (exactIn h R name) = false
         /\ regular h (indexIn h (View.ext this) R name) = false)
  /\ (forall p,
         fst (View.lookup h this name w) = Normal (Some p)
         <-> exists pre Ri post,
               roots = pre ++ Ri :: post
               /\ (forall Rj, In Rj pre -> matchIn h (View.ext this) Rj name = None)
               /\ matchIn h (View.ext this) Ri name = Some p).
Proof.
  intros Hroots. unfold View.lookup. rewrite Hroots.
  assert (Hnone : forall R,
             matchIn h (View.ext this) R name = None
             <-> regular h (exactIn h R name) = false
                 /\ regular h (indexIn h (View.ext this) R name) = false).
  { intros R. unfold matchIn.
    destruct (regular h (exactIn h R name));
      [split; [discriminate | intros [? _]; discriminate] |].
    destruct (regular h (indexIn h (View.ext this) R name)); split; try discriminate; auto.
    intros [_ ?]; discriminate. }
  split.
  - split.
    + intros Hrun R HR. apply Hnone.
      destruct (lookupLoop_first_match h this name roots w)
        as [(pre & Ri & post & p & _ & _ & _ & Hrun') | [Hmiss _]];
        [congruence | now apply Hmiss].
    + intros Hmiss. rewrite <- (app_nil_r (map Some roots)).
      rewrite lookupLoop_misses by (intros R HR; now apply Hnone, Hmiss). reflexivity.
  - intros p. split.
    + intros Hrun.
      destruct (lookupLoop_first_match h this name roots w)
        as [(pre & Ri & post & p' & Hsplit & Hmiss & Hhit & Hrun') | [_ Hrun']];
        [| congruence].
      assert (p' = p) as -> by congruence. eauto 10.
    + intros (pre & Ri & post & -> & Hmiss & Hhit).
      rewrite map_app, lookupLoop_misses by assumption.
      cbn [map]. rewrite lookupLoop_cons. change (View.found None) with false; cbv iota.
      rewrite lookupIn_run, Hhit.
      rewrite lookupLoop_found by (eapply matchIn_truthy; eassumption). reflexivity.
Qed.

Lemma lookup_answer_is_the_first_match_witness :
  fst (View.lookup (demoHost ["/c/index.html"]) (demoView (Options.Many ["/views"; "b"]))
         "index.html" freshWorld) = Normal None
  <-> forall R, In R ["/views"; "b"] ->
        regular (demoHost ["/c/index.html"])
                (exactIn (demoHost ["/c/index.html"]) R "index.html") = false
        /\ regular (demoHost ["/c/index.html"])
                   (indexIn (demoHost ["/c/index.html"]) ".html" R "index.html") = false.
Proof.
  refine (proj1 (lookup_answer_is_the_first_match (demoHost ["/c/index.html"])
                   (demoView (Options.Many ["/views"; "b"])) "index.html"
                   ["/views"; "b"] freshWorld _)).
  reflexivity.
Defined.
